(** * consul-kv-sync: flattening, duplicate detection, batching and the sync loop

    A shallow embedding of the Go sources (the YAML flattener, [detectDuplicates],
    [chunkOps], [ConsulClient.syncKVPairs], [syncToConsul] and [run]) and the
    properties the specification states about them.

    Conventions of the embedding.
    - A Go [int] is a [Z]; every addition the program performs is written with
      [int_add], which wraps around at 64 bits as the machine does.
    - A Go [string] is a [string] (a sequence of bytes); [<] on strings is the
      byte-wise lexicographic order, [String.ltb].
    - A slice is a [list]; a slice expression that is out of range panics, which
      [slice] reports as [None].
    - A Go map that the program only ranges over is the list of its entries in
      the order the [range] statement visits them.  The runtime may choose any
      order, so the statements below hold for every list.
    - The world outside the program (the Consul endpoint, standard output) is
      threaded through a state monad [M].  What is printed is recorded as the
      data of each line, not as formatted text; the pause between two batches
      ([time.Sleep]) has no counterpart. *)

From Stdlib Require Import ZArith String Ascii List Lia Permutation Sorted.
From Stdlib Require Import OrdersEx DecimalString.
From stdpp Require Import gmap strings list fin_maps sorting.

Local Open Scope string_scope.
Local Open Scope list_scope.
Local Open Scope Z_scope.

(** ** Machine integers *)

Definition int_min : Z := - 2 ^ 63.
Definition int_max : Z := 2 ^ 63 - 1.

(** Two's complement reduction of an exact result into the range of [int]. *)
Definition wrap (z : Z) : Z := (z + 2 ^ 63) mod 2 ^ 64 - 2 ^ 63.

Definition int_add (a b : Z) : Z := wrap (a + b).

(** [len(s)] of a slice. *)
Definition len {A : Type} (s : list A) : Z := Z.of_nat (length s).

(** A slice that a running Go program holds has a length far below [2^62]
    (its elements are addressable memory); the larger bound is all the
    arithmetic below needs. *)
Definition in_memory {A : Type} (s : list A) : Prop := len s <= 2 ^ 62.

(** The slice expression [s[lo:hi]].  Go requires [0 <= lo <= hi <= cap(s)];
    the only slice expression of the program has [hi <= len(s)], so the bound
    on [hi] is written with [len]. *)
Definition slice {A : Type} (s : list A) (lo hi : Z) : option (list A) :=
  if (0 <=? lo) && (lo <=? hi) && (hi <=? len s)
  then Some (take (Z.to_nat (hi - lo)) (drop (Z.to_nat lo) s))
  else None.

(** How a call ends: with a value, with a run-time panic, or not within the
    steps it was given. *)
Inductive outcome (A : Type) : Type :=
| Returned (a : A)
| Panicked
| Running.
Arguments Returned {A} a.
Arguments Panicked {A}.
Arguments Running {A}.

(** ** Data types (types.go) *)

Module KVPair.
Record t : Type := mk { Key : string; Value : string }.
End KVPair.

Module TxnKVOp.
Record t : Type := mk { Verb : string; Key : string; Value : string; Flags : Z }.
End TxnKVOp.

Module TxnOp.
(** [KV] is a pointer in the source: [None] is the nil pointer. *)
Record t : Type := mk { KV : option TxnKVOp.t }.
End TxnOp.

Module KVData.
Record t : Type := mk {
  LockIndex : Z; Key : string; Flags : Z; Value : string;
  CreateIndex : Z; ModifyIndex : Z }.
End KVData.

Module TxnResult.
Record t : Type := mk { KV : option KVData.t }.
End TxnResult.

Module TxnError.
Record t : Type := mk { OpIndex : Z; What : string }.
End TxnError.

Module TxnResponse.
Record t : Type := mk { Results : list TxnResult.t; Errors : list TxnError.t }.
End TxnResponse.

Module FileSource.
(** [Value] is an [interface{}] in the source; it only ever receives the
    [string] of a [KVPair]. *)
Record t : Type := mk { Filename : string; Value : string }.
End FileSource.

Module DuplicateInfo.
Record t : Type := mk { Key : string; Files : list FileSource.t }.
End DuplicateInfo.

(** The values of type [error] the program builds, one constructor for each
    [fmt.Errorf]; [cause] is the text of a library error wrapped with [%w]. *)
Inductive error : Type :=
| ErrMarshal (cause : string)
| ErrCreateRequest (cause : string)
| ErrExecuteRequest (cause : string)
| ErrReadBody (cause : string)
| ErrUnmarshal (cause : string)
| ErrRolledBack (nErrors : Z)
| ErrUnexpectedStatus (code : Z) (body : string)
| ErrArityMismatch (nMaps nFilenames : Z)
| ErrDetectDuplicates (inner : error)
| ErrDuplicateKeys
| ErrLoad (cause : string)
| ErrSyncKVPairs (inner : error)
| ErrBatchesFailed (failed total : Z).

Module BatchResult.
Record t : Type := mk {
  BatchIndex : Z;
  Success : bool;
  Error : option error;
  OpErrors : list TxnError.t;
  ProcessedOps : Z }.
End BatchResult.

Module ExecutionSummary.
Record t : Type := mk {
  TotalKeys : Z;
  TotalBatches : Z;
  SuccessBatches : Z;
  FailedBatches : Z;
  Results : list BatchResult.t }.
End ExecutionSummary.

(** ** Base64 (encoding/base64, StdEncoding) *)

Definition b64_alphabet : list ascii :=
  list_ascii_of_string
    "ABCDEFGHIJKLMNOPQRSTUVWXYZabcdefghijklmnopqrstuvwxyz0123456789+/".

Definition b64_digit (n : N) : ascii :=
  nth (N.to_nat n) b64_alphabet "="%char.

Fixpoint b64_encode (bs : list N) : string :=
  match bs with
  | [] => ""
  | [a] =>
      String (b64_digit (N.shiftr a 2))
     (String (b64_digit (N.shiftl (N.land a 3) 4)) "==")
  | [a; b] =>
      String (b64_digit (N.shiftr a 2))
     (String (b64_digit (N.lor (N.shiftl (N.land a 3) 4) (N.shiftr b 4)))
     (String (b64_digit (N.shiftl (N.land b 15) 2)) "="))
  | a :: b :: c :: rest =>
      String (b64_digit (N.shiftr a 2))
     (String (b64_digit (N.lor (N.shiftl (N.land a 3) 4) (N.shiftr b 4)))
     (String (b64_digit (N.lor (N.shiftl (N.land b 15) 2) (N.shiftr c 6)))
     (String (b64_digit (N.land c 63)) (b64_encode rest))))
  end.

(** [encodeValue] encodes a string value to base64. *)
Definition encodeValue (value : string) : string :=
  b64_encode (map N_of_ascii (list_ascii_of_string value)).

(** ** Transaction operations and batches (part_001) *)

Definition MaxOpsPerTransaction : Z := 64.

(** [createTransactionOps]: [ops[i]] is the [set] operation of [pairs[i]]. *)
Definition createTransactionOps (pairs : list KVPair.t) : list TxnOp.t :=
  map (fun pair =>
         TxnOp.mk (Some (TxnKVOp.mk "set" (KVPair.Key pair)
                                    (encodeValue (KVPair.Value pair)) 0)))
      pairs.

(** The loop of [chunkOps]:
<<
    for i := 0; i < len(ops); i += chunkSize {
        end := i + chunkSize
        if end > len(ops) { end = len(ops) }
        chunks = append(chunks, ops[i:end])
    }
>>
    [fuel] bounds the number of times the condition is tested. *)
Fixpoint chunkOps_loop (fuel : nat) (ops : list TxnOp.t) (chunkSize i : Z)
    (chunks : list (list TxnOp.t)) : outcome (list (list TxnOp.t)) :=
  match fuel with
  | O => Running
  | S fuel' =>
      if i <? len ops then
        let end0 := int_add i chunkSize in
        let end1 := if end0 >? len ops then len ops else end0 in
        match slice ops i end1 with
        | None => Panicked
        | Some chunk =>
            chunkOps_loop fuel' ops chunkSize (int_add i chunkSize)
                          (chunks ++ [chunk])
        end
      else Returned chunks
  end.

(** [chunkOps] splits operations into chunks of specified size. *)
Definition chunkOps (fuel : nat) (ops : list TxnOp.t) (chunkSize : Z)
  : outcome (list (list TxnOp.t)) :=
  chunkOps_loop fuel ops chunkSize 0 [].

(** What the specification says the planner produces: batch [k] holds the
    entries [[k*C, min((k+1)*C, N))], for [k] below [ceil(N/C)]. *)
Definition ceil_div (n c : nat) : nat := ((n + c - 1) / c)%nat.

Definition batch {A : Type} (ops : list A) (c k : nat) : list A :=
  take c (drop (k * c) ops).

Definition plan_spec {A : Type} (ops : list A) (c : nat) : list (list A) :=
  map (batch ops c) (seq 0 (ceil_div (length ops) c)).


(** ** YAML values and the flattener (part_001)

    What [yaml.Unmarshal] stores in an [interface{}]: nil, a string, an
    integer, a boolean, a float, a sequence, a mapping with string keys
    ([map[string]interface{}]) or a mapping with keys of any kind
    ([map[interface{}]interface{}]).  A [float64] (or a timestamp) is
    represented by the text [%v] prints for it. *)
#[local] Set Warnings "-register-all".

Inductive value : Type :=
| VNil
| VString (s : string)
| VInt (n : Z)
| VBool (b : bool)
| VFloat (text : string)
| VSeq (elems : list value)
| VMapS (entries : list (string * value))
| VMapI (entries : list (value * value)).

(** A [map[string]interface{}], as the entries a [range] over it visits. *)
Definition yaml_map : Type := list (string * value).

Section Program.

(** The text [fmt] prints for a mapping that sits inside a sequence,
    [map[k:v ...]]: the keys are ordered by the library (for keys of interface
    type by their type descriptors), so the text is left to a parameter. *)
Variable fmt_map : value -> string.

(** [fmt.Sprintf("%d", n)]. *)
Definition Sprintf_d (n : Z) : string := NilZero.string_of_int (Z.to_int n).

(** [fmt.Sprintf("%v", value)]. *)
Fixpoint Sprintf_v (v : value) : string :=
  match v with
  | VNil => "<nil>"
  | VString s => s
  | VInt n => Sprintf_d n
  | VBool b => if b then "true" else "false"
  | VFloat text => text
  | VSeq elems =>
      ("[" ++
      (fix spaced (l : list value) : string :=
         match l with
         | [] => ""
         | x :: rest =>
             match rest with
             | [] => Sprintf_v x
             | _ :: _ => (Sprintf_v x ++ " " ++ spaced rest)%string
             end
         end) elems
      ++ "]")%string
  | VMapS _ | VMapI _ => fmt_map v
  end.

(** [buildKey] constructs a full key path. *)
Definition buildKey (prefix key : string) : string :=
  if String.eqb prefix "" then key else (prefix ++ "/" ++ key)%string.

(** [processValue] handles different value types and returns KV pairs.  The
    two inner loops are the bodies of [flattenKVPairs] and of
    [processInterfaceMap] followed by [flattenKVPairs]; see
    [processValue_VMapS] and [processValue_VMapI]. *)
Fixpoint processValue (key : string) (v : value) {struct v} : list KVPair.t :=
  match v with
  | VMapS entries =>
      (fix flatten (data : list (string * value)) : list KVPair.t :=
         match data with
         | [] => []
         | (k, x) :: rest => processValue (buildKey key k) x ++ flatten rest
         end) entries
  | VMapI entries =>
      (fix flatten (data : list (value * value)) : list KVPair.t :=
         match data with
         | [] => []
         | (VString k, x) :: rest =>
             processValue (buildKey key k) x ++ flatten rest
         | _ :: rest => flatten rest
         end) entries
  | _ => [KVPair.mk key (Sprintf_v v)]
  end.

(** [flattenKVPairs] converts nested map structure to flat key-value pairs. *)
Definition flattenKVPairs (data : yaml_map) (prefix : string) : list KVPair.t :=
  flat_map (fun '(key, v) => processValue (buildKey prefix key) v) data.

(** The map [processInterfaceMap] builds: the entries whose key is a string. *)
Definition convertedMap (m : list (value * value)) : yaml_map :=
  omap (fun '(k, v) => match k with VString strKey => Some (strKey, v) | _ => None end) m.

(** [processInterfaceMap] converts [map[interface{}]interface{}] and processes it. *)
Definition processInterfaceMap (key : string) (m : list (value * value))
  : list KVPair.t :=
  flattenKVPairs (convertedMap m) key.

(** [collectAllKVPairs] collects all KV pairs from multiple YAML files. *)
Definition collectAllKVPairs (kvMaps : list yaml_map) : list KVPair.t :=
  flat_map (fun kvMap => flattenKVPairs kvMap "") kvMaps.

(** ** Duplicate detection (part_002) *)

(** [keyTracker[pair.Key] = append(keyTracker[pair.Key], FileSource{...})]. *)
Definition track (filename : string) (keyTracker : gmap string (list FileSource.t))
    (pair : KVPair.t) : gmap string (list FileSource.t) :=
  <[KVPair.Key pair :=
      default [] (keyTracker !! KVPair.Key pair)
      ++ [FileSource.mk filename (KVPair.Value pair)]]> keyTracker.

(** The first loop of [detectDuplicates]; [filenames[i]] is in range because
    the lengths were compared before. *)
Definition trackAll (kvMaps : list yaml_map) (filenames : list string)
  : gmap string (list FileSource.t) :=
  foldl (fun keyTracker '(kvMap, filename) =>
           foldl (track filename) keyTracker (flattenKVPairs kvMap ""))
        ∅ (zip kvMaps filenames).

(** The second loop, over the entries of [keyTracker] in the order [visit]. *)
Definition findDuplicates (visit : list (string * list FileSource.t))
  : list DuplicateInfo.t :=
  omap (fun '(key, sources) =>
          if len sources >? 1 then Some (DuplicateInfo.mk key sources) else None)
       visit.

(** The comparison handed to [sort.Slice]. *)
Definition less (a b : DuplicateInfo.t) : bool :=
  String.ltb (DuplicateInfo.Key a) (DuplicateInfo.Key b).

(** [sort.Slice(duplicates, less)].  The library's algorithm is not stable and
    not part of the program; the keys of [duplicates] are pairwise distinct,
    so every sort returns the same slice ([sort_Slice_unique]). *)
Fixpoint sort_insert (x : DuplicateInfo.t) (l : list DuplicateInfo.t)
  : list DuplicateInfo.t :=
  match l with
  | [] => [x]
  | y :: l' => if less y x then y :: sort_insert x l' else x :: y :: l'
  end.

Definition sort_Slice (l : list DuplicateInfo.t) : list DuplicateInfo.t :=
  foldr sort_insert [] l.

(** [detectDuplicates] checks for duplicate keys across all YAML files.  The
    range over [keyTracker] visits its entries in some order; the model takes
    [map_to_list], and [detectDuplicates_any_visit] shows the order is
    immaterial. *)
Definition detectDuplicates (kvMaps : list yaml_map) (filenames : list string)
  : list DuplicateInfo.t * option error :=
  if negb (len kvMaps =? len filenames) then
    ([], Some (ErrArityMismatch (len kvMaps) (len filenames)))
  else
    let keyTracker := trackAll kvMaps filenames in
    let duplicates := findDuplicates (map_to_list keyTracker) in
    (sort_Slice duplicates, None).

(** ** The world outside the program *)

(** What one request to the transaction endpoint comes to: [http.NewRequest]
    rejects the URL, [httpClient.Do] fails (refused, timed out),
    [io.ReadAll] fails, or there is a status code and a body. *)
Inductive exchange : Type :=
| RequestInvalid (cause : string)
| Unreachable (cause : string)
| BodyUnreadable (cause : string)
| Answered (status : Z) (body : string).

(** The lines the modelled functions print, each with the data it is
    formatted from. *)
Inductive output : Type :=
| OutCheckingDuplicates
| OutDuplicateError (duplicates : list DuplicateInfo.t)
| OutCollected (nPairs : Z)
| OutExport (pairs : list KVPair.t)
| OutDryRun (pairs : list KVPair.t)
| OutSyncingTo (nPairs : Z)
| OutSyncingBatches (nPairs nChunks : Z)
| OutProcessingBatch (number total nOps : Z)
| OutSummary (summary : ExecutionSummary.t).

(** The state of the Consul endpoint and of the network. *)
Variable world : Type.

(** A PUT of [body] to [url]. *)
Variable http_PUT : world -> string -> string -> world * exchange.

(** [json.Marshal] of the operations and [json.Unmarshal] into a
    [TxnResponse]; [inr] carries the library's error. *)
Variable json_Marshal : list TxnOp.t -> string + string.
Variable json_Unmarshal : string -> TxnResponse.t + string.

(** [loadConfigurationAndFiles]: reading the configuration and the YAML files
    of an environment (config.go, [loadAllYAMLFiles]). *)
Variable loadConfigurationAndFiles :
  string -> string -> bool -> list yaml_map * list string * option error.

Record machine : Type := mkMachine { remote : world; printed : list output }.

(** Computations that act on the world and may panic or run on. *)
Definition M (A : Type) : Type := machine -> outcome A * machine.

Definition ret {A : Type} (a : A) : M A := fun m => (Returned a, m).

Definition bind {A B : Type} (c : M A) (k : A -> M B) : M B :=
  fun m =>
    match c m with
    | (Returned a, m') => k a m'
    | (Panicked, m') => (Panicked, m')
    | (Running, m') => (Running, m')
    end.

Definition lift {A : Type} (o : outcome A) : M A := fun m => (o, m).

Notation "x <- c1 ;; c2" := (bind c1 (fun x => c2))
  (at level 100, c1 at next level, right associativity).
Notation "c1 ;; c2" := (bind c1 (fun _ => c2))
  (at level 100, right associativity).

Definition print (o : output) : M unit :=
  fun m => (Returned tt, mkMachine (remote m) (printed m ++ [o])).

Definition when (b : bool) (c : M unit) : M unit := if b then c else ret tt.

Definition http_request (url body : string) : M exchange :=
  fun m =>
    let '(w, x) := http_PUT (remote m) url body in
    (Returned x, mkMachine w (printed m)).

(** ** The Consul client (part_000) *)

Record ConsulClient : Type := mkClient { addr : string; datacenter : string }.

(** [NewConsulClient] creates a new Consul client (its 30 s timeout is part of
    what [http_PUT] answers). *)
Definition NewConsulClient (addr datacenter : string) : ConsulClient :=
  mkClient addr datacenter.

(** [executeTransaction] executes a transaction with the given operations. *)
Definition executeTransaction (c : ConsulClient) (ops : list TxnOp.t)
  : M (option TxnResponse.t * option error) :=
  let url := (addr c ++ "/v1/txn?dc=" ++ datacenter c)%string in
  match json_Marshal ops with
  | inr cause => ret (None, Some (ErrMarshal cause))
  | inl jsonData =>
      x <- http_request url jsonData ;;
      match x with
      | RequestInvalid cause => ret (None, Some (ErrCreateRequest cause))
      | Unreachable cause => ret (None, Some (ErrExecuteRequest cause))
      | BodyUnreadable cause => ret (None, Some (ErrReadBody cause))
      | Answered status body =>
          match json_Unmarshal body with
          | inr cause => ret (None, Some (ErrUnmarshal cause))
          | inl txnResp =>
              if status =? 200 then ret (Some txnResp, None)
              else if status =? 409 then
                ret (Some txnResp,
                     Some (ErrRolledBack (len (TxnResponse.Errors txnResp))))
              else ret (None, Some (ErrUnexpectedStatus status body))
          end
      end
  end.

(** The body of the loop of [syncKVPairs] for the batch at index [i]: the new
    [summary].  ([time.Sleep] between batches is not modelled.) *)
Definition syncBatch (c : ConsulClient) (verbose : bool) (nChunks i : Z)
    (chunk : list TxnOp.t) (summary : ExecutionSummary.t)
  : M ExecutionSummary.t :=
  when verbose (print (OutProcessingBatch (int_add i 1) nChunks (len chunk))) ;;
  answer <- executeTransaction c chunk ;;
  let '(txnResp, err) := answer in
  let '(result, summary) :=
    match err with
    | Some e =>
        (BatchResult.mk i false (Some e)
           (match txnResp with
            | Some r => TxnResponse.Errors r
            | None => []
            end)
           (len chunk),
         ExecutionSummary.mk
           (ExecutionSummary.TotalKeys summary)
           (ExecutionSummary.TotalBatches summary)
           (ExecutionSummary.SuccessBatches summary)
           (int_add (ExecutionSummary.FailedBatches summary) 1)
           (ExecutionSummary.Results summary))
    | None =>
        (BatchResult.mk i true None [] (len chunk),
         ExecutionSummary.mk
           (ExecutionSummary.TotalKeys summary)
           (ExecutionSummary.TotalBatches summary)
           (int_add (ExecutionSummary.SuccessBatches summary) 1)
           (ExecutionSummary.FailedBatches summary)
           (ExecutionSummary.Results summary))
    end in
  ret (ExecutionSummary.mk
         (ExecutionSummary.TotalKeys summary)
         (ExecutionSummary.TotalBatches summary)
         (ExecutionSummary.SuccessBatches summary)
         (ExecutionSummary.FailedBatches summary)
         (ExecutionSummary.Results summary ++ [result])).

(** [for i, chunk := range chunks], from index [i] on (the index of a range
    loop stays below [len(chunks)]: it is counted without wrap-around). *)
Fixpoint syncBatches (c : ConsulClient) (verbose : bool) (nChunks i : Z)
    (chunks : list (list TxnOp.t)) (summary : ExecutionSummary.t)
  : M ExecutionSummary.t :=
  match chunks with
  | [] => ret summary
  | chunk :: rest =>
      summary' <- syncBatch c verbose nChunks i chunk summary ;;
      syncBatches c verbose nChunks (i + 1) rest summary'
  end.

(** [syncKVPairs] synchronizes all KV pairs to Consul.  The call of
    [chunkOps] is given [len(ops) + 1] steps, more than it takes
    ([chunkOps_refines_plan]). *)
Definition syncKVPairs (c : ConsulClient) (pairs : list KVPair.t) (verbose : bool)
  : M (option ExecutionSummary.t * option error) :=
  let ops := createTransactionOps pairs in
  chunks <- lift (chunkOps (S (length ops)) ops MaxOpsPerTransaction) ;;
  let summary := ExecutionSummary.mk (len pairs) (len chunks) 0 0 [] in
  when verbose (print (OutSyncingBatches (len pairs) (len chunks))) ;;
  summary <- syncBatches c verbose (len chunks) 0 chunks summary ;;
  ret (Some summary, None).

(** ** The command (main.go) *)

Definition checkDuplicates (kvMaps : list yaml_map) (filenames : list string)
    (verbose : bool) : M (option error) :=
  when verbose (print OutCheckingDuplicates) ;;
  let '(duplicates, err) := detectDuplicates kvMaps filenames in
  match err with
  | Some e => ret (Some (ErrDetectDuplicates e))
  | None =>
      if len duplicates >? 0 then
        print (OutDuplicateError duplicates) ;;
        ret (Some ErrDuplicateKeys)
      else ret None
  end.

Definition syncToConsul (allPairs : list KVPair.t) (consulAddr datacenter : string)
    (verbose : bool) : M (option error) :=
  print (OutSyncingTo (len allPairs)) ;;
  let client := NewConsulClient consulAddr datacenter in
  answer <- syncKVPairs client allPairs verbose ;;
  let '(summary, err) := answer in
  match summary with
  | Some s => print (OutSummary s)
  | None => ret tt
  end ;;
  match err, summary with
  | Some e, None => ret (Some (ErrSyncKVPairs e))
  | _, Some s =>
      if ExecutionSummary.FailedBatches s >? 0 then
        ret (Some (ErrBatchesFailed (ExecutionSummary.FailedBatches s)
                                    (ExecutionSummary.TotalBatches s)))
      else ret None
  | None, None => ret None
  end.

(** [exportToJSON] prints the pairs with their values encoded; writing to
    standard output is taken to succeed. *)
Definition exportToJSON (pairs : list KVPair.t) : M (option error) :=
  print (OutExport
           (map (fun pair => KVPair.mk (KVPair.Key pair)
                                       (encodeValue (KVPair.Value pair)))
                pairs)) ;;
  ret None.

Definition run (environment configFile : string) (dryRun export : bool)
    (consulAddr datacenter : string) (verbose : bool) : M (option error) :=
  let '(kvMaps, filenames, err) :=
    loadConfigurationAndFiles environment configFile verbose in
  match err with
  | Some e => ret (Some e)
  | None =>
      err <- checkDuplicates kvMaps filenames verbose ;;
      match err with
      | Some e => ret (Some e)
      | None =>
          let allPairs := collectAllKVPairs kvMaps in
          when verbose (print (OutCollected (len allPairs))) ;;
          if export then exportToJSON allPairs
          else if dryRun then print (OutDryRun allPairs) ;; ret None
          else syncToConsul allPairs consulAddr datacenter verbose
      end
  end.

(** ** Vocabulary of the statements *)

(** What [executeTransaction] returns, and the state it leaves the endpoint
    in, when the endpoint is in state [w]. *)
Definition transaction_result (c : ConsulClient) (w : world) (ops : list TxnOp.t)
  : outcome (option TxnResponse.t * option error) :=
  fst (executeTransaction c ops (mkMachine w [])).

Definition transaction_world (c : ConsulClient) (w : world) (ops : list TxnOp.t)
  : world :=
  remote (snd (executeTransaction c ops (mkMachine w []))).

(** The state of the endpoint after the batches [chunks] were submitted one
    after the other. *)
Definition submitted (c : ConsulClient) (w : world) (chunks : list (list TxnOp.t))
  : world :=
  foldl (transaction_world c) w chunks.

(** The batches [syncKVPairs] plans for [pairs]. *)
Definition planned (pairs : list KVPair.t) : list (list TxnOp.t) :=
  plan_spec (createTransactionOps pairs) (Z.to_nat MaxOpsPerTransaction).

(** The failures the specification calls transport-level: the request could
    not be made or sent, or the answer could not be read or parsed. *)
Definition transport_level (e : error) : bool :=
  match e with
  | ErrCreateRequest _ | ErrExecuteRequest _ | ErrReadBody _ | ErrUnmarshal _ => true
  | _ => false
  end.

Definition succeeded (r : BatchResult.t) : bool := BatchResult.Success r.
Definition failed (r : BatchResult.t) : bool := negb (BatchResult.Success r).

(** The record the loop of [syncKVPairs] appends for the batch at index [i]
    when the endpoint is in state [w]. *)
Definition batchResult (c : ConsulClient) (w : world) (i : Z)
    (chunk : list TxnOp.t) : BatchResult.t :=
  match transaction_result c w chunk with
  | Returned (txnResp, Some e) =>
      BatchResult.mk i false (Some e)
        (match txnResp with
         | Some r => TxnResponse.Errors r
         | None => []
         end)
        (len chunk)
  | _ => BatchResult.mk i true None [] (len chunk)
  end.

Fixpoint batchResults (c : ConsulClient) (w : world) (i : Z)
    (chunks : list (list TxnOp.t)) : list BatchResult.t :=
  match chunks with
  | [] => []
  | chunk :: rest =>
      batchResult c w i chunk
      :: batchResults c (transaction_world c w chunk) (i + 1) rest
  end.

(** A mapping of either kind, and a collection: a mapping or a sequence. *)
Definition is_mapping (v : value) : bool :=
  match v with
  | VMapS _ | VMapI _ => true
  | _ => false
  end.

Definition is_collection (v : value) : bool :=
  match v with
  | VSeq _ | VMapS _ | VMapI _ => true
  | _ => false
  end.

(** [reaches key v key' v']: going down from the value [v], which sits at the
    path [key], through mappings and along keys that are strings, one arrives
    at the value [v'] at the path [key'] (the recursion rule of the
    specification's flattener). *)
Inductive reaches : string -> value -> string -> value -> Prop :=
| reaches_here (key : string) (v : value) : reaches key v key v
| reaches_string_key (key : string) (entries : list (string * value))
    (k : string) (x : value) (key' : string) (v' : value) :
    In (k, x) entries ->
    reaches (buildKey key k) x key' v' ->
    reaches key (VMapS entries) key' v'
| reaches_interface_key (key : string) (entries : list (value * value))
    (k : string) (x : value) (key' : string) (v' : value) :
    In (VString k, x) entries ->
    reaches (buildKey key k) x key' v' ->
    reaches key (VMapI entries) key' v'.

(** The flattened entries of all sources in the order [detectDuplicates]
    processes them, each with the file it comes from. *)
Definition tagged (filename : string) (pair : KVPair.t) : string * FileSource.t :=
  (KVPair.Key pair, FileSource.mk filename (KVPair.Value pair)).

Definition entries (kvMaps : list yaml_map) (filenames : list string)
  : list (string * FileSource.t) :=
  flat_map (fun '(kvMap, filename) =>
              map (tagged filename) (flattenKVPairs kvMap ""))
           (zip kvMaps filenames).

(** The occurrences of the path [key] among [es], in order. *)
Definition occurrences (key : string) (es : list (string * FileSource.t))
  : list FileSource.t :=
  map snd (List.filter (fun e => String.eqb (fst e) key) es).

(** The sources in whose flattening the path [key] occurs. *)
Definition sources_with (key : string) (kvMaps : list yaml_map) : list yaml_map :=
  List.filter
    (fun kvMap =>
       existsb (fun pair => String.eqb (KVPair.Key pair) key)
               (flattenKVPairs kvMap ""))
    kvMaps.

(** The order [sort.Slice] is asked for. *)
Definition key_lt (a b : DuplicateInfo.t) : Prop := less a b = true.

(** One step of the first loop of [detectDuplicates], on a tagged entry. *)
Definition track_entry (keyTracker : gmap string (list FileSource.t))
    (e : string * FileSource.t) : gmap string (list FileSource.t) :=
  <[fst e := default [] (keyTracker !! fst e) ++ [snd e]]> keyTracker.

(** ** Concrete inputs for the examples

    An endpoint is represented by the number of requests it has received. *)

(** No example below has a mapping inside a sequence; this is the text of an
    empty one. *)
Definition fmt_empty_map (v : value) : string := "map[]".

(** The pairs of TestChunkOps: [key0], [key1], ... with the value [value]. *)
Definition sample_pairs (n : nat) : list KVPair.t :=
  map (fun i => KVPair.mk ("key" ++ NilZero.string_of_int (Z.to_int (Z.of_nat i)))%string
                          "value")
      (seq 0 n).

Definition sample_ops (n : nat) : list TxnOp.t :=
  createTransactionOps (sample_pairs n).

Definition sample_client : ConsulClient :=
  mkClient "http://127.0.0.1:8500" "dc1".

Definition marshal_any (ops : list TxnOp.t) : string + string := inl "[]".

(** An endpoint that cannot be reached. *)
Definition refused_PUT (w : nat) (url body : string) : nat * exchange :=
  (S w, Unreachable "connection refused").

(** An endpoint that rolls back the second request and commits the others. *)
Definition second_rejected_PUT (w : nat) (url body : string) : nat * exchange :=
  (S w, if Nat.eqb w 1 then Answered 409 "rolled back" else Answered 200 "ok").

Definition sample_Unmarshal (body : string) : TxnResponse.t + string :=
  if String.eqb body "rolled back"
  then inl (TxnResponse.mk [] [TxnError.mk 0 "invalid key"])
  else inl (TxnResponse.mk [] []).

(** One source in which the path [a/b] is written twice: as the key ["a/b"]
    and as the key [b] under [a]. *)
Definition slash_source : yaml_map :=
  [("a/b", VString "1"); ("a", VMapS [("b", VString "2")])].

(** Scenario A of the specification. *)
Definition scenario_A : list (yaml_map * string) :=
  [([("a", VInt 1)], "f1"); ([("a", VInt 2)], "f2")].

(** A source with a sequence, and one with a nil value under a mapping. *)
Definition servers_source : yaml_map :=
  [("servers", VSeq [VString "a"; VString "b"])].

Definition null_source : yaml_map :=
  [("app", VMapS [("name", VString "x"); ("owner", VNil)])].

(** A loader that hands over one mapping and two file names (the mismatch
    case of TestDetectDuplicates). *)
Definition mismatched_load (environment configFile : string) (verbose : bool)
  : list yaml_map * list string * option error :=
  ([[("key", VString "value")]], ["file1.yaml"; "file2.yaml"], None).

(** A second source with the path [app/owner], here with a value. *)
Definition owner_source : yaml_map :=
  [("app", VMapS [("owner", VString "bob")])].

(** A source in which a nil sits under a key that is not a string: the
    mapping under [ports] has the string key [name] and the integer key
    [8080], so the decoder hands it over with keys of any kind. *)
Definition ports_source : yaml_map :=
  [("ports", VMapI [(VString "name", VString "http"); (VInt 8080, VNil)])].

(** One file with the keys [key0], [key1], ..., and a loader that hands over
    that file with 65 keys. *)
Definition sample_source (n : nat) : yaml_map :=
  map (fun pair => (KVPair.Key pair, VString (KVPair.Value pair)))
      (sample_pairs n).

Definition sample_load (environment configFile : string) (verbose : bool)
  : list yaml_map * list string * option error :=
  ([sample_source 65], ["app.yaml"], None).

(** ** Machine arithmetic and slices *)

Lemma wrap_small (z : Z) : int_min <= z <= int_max -> wrap z = z.
Proof.
  unfold wrap, int_min, int_max. intros H.
  rewrite Z.mod_small by lia. lia.
Qed.

Lemma len_nonneg {A : Type} (s : list A) : 0 <= len s.
Proof. unfold len. lia. Qed.

Lemma len_app {A : Type} (s t : list A) : len (s ++ t) = len s + len t.
Proof. unfold len. rewrite length_app. lia. Qed.

Lemma in_memory_map {A B : Type} (f : A -> B) (s : list A) :
  in_memory s -> in_memory (map f s).
Proof. unfold in_memory, len. now rewrite length_map. Qed.

Lemma ceil_div_gt (n c k : nat) :
  (0 < c)%nat -> (k * c < n)%nat <-> (k < ceil_div n c)%nat.
Proof.
  intros Hc. unfold ceil_div. split; intros H.
  - apply Nat.div_le_lower_bound; lia.
  - destruct (Nat.le_gt_cases n (k * c)) as [Hle|]; [exfalso|assumption].
    assert ((n + c - 1) / c < S k)%nat; [|lia].
    apply Nat.Div0.div_lt_upper_bound; lia.
Qed.

Lemma ceil_div_le (n c : nat) : (0 < c)%nat -> (ceil_div n c <= n)%nat.
Proof.
  intros Hc. destruct (ceil_div n c) as [|k] eqn:E; [lia|].
  assert (H : (k < ceil_div n c)%nat) by lia.
  apply ceil_div_gt in H; [|assumption]. nia.
Qed.

Lemma ceil_div_0 (c : nat) : ceil_div 0 c = 0%nat.
Proof.
  unfold ceil_div. destruct c as [|c]; [reflexivity|].
  apply Nat.div_small. lia.
Qed.

(** A batch is what the slice expression of [chunkOps] takes. *)
Lemma slice_batch {A : Type} (ops : list A) (c k : nat) :
  (k * c < length ops)%nat ->
  slice ops (Z.of_nat (k * c))
        (if Z.of_nat (k * c) + Z.of_nat c >? len ops
         then len ops else Z.of_nat (k * c) + Z.of_nat c)
  = Some (batch ops c k).
Proof.
  intros Hk. unfold slice, batch, len.
  destruct (Z.gtb_spec (Z.of_nat (k * c) + Z.of_nat c) (Z.of_nat (length ops)))
    as [Hgt|Hle].
  - replace ((0 <=? _) && _ && _) with true
      by (symmetry; rewrite !andb_true_iff, !Z.leb_le; lia).
    f_equal. rewrite Nat2Z.id.
    rewrite !take_ge; [reflexivity| |]; rewrite length_drop; lia.
  - replace ((0 <=? _) && _ && _) with true
      by (symmetry; rewrite !andb_true_iff, !Z.leb_le; lia).
    f_equal. rewrite Nat2Z.id. f_equal. lia.
Qed.

(** ** [chunkOps] computes the plan *)

Lemma chunkOps_loop_plan (fuel : nat) :
  forall (ops : list TxnOp.t) (c k : nat) (chunks : list (list TxnOp.t)),
    (0 < c)%nat -> Z.of_nat c <= int_max -> in_memory ops ->
    (k <= ceil_div (length ops) c)%nat ->
    (ceil_div (length ops) c - k < fuel)%nat ->
    chunkOps_loop fuel ops (Z.of_nat c) (Z.of_nat (k * c)) chunks
    = Returned (chunks ++ map (batch ops c)
                              (seq k (ceil_div (length ops) c - k))).
Proof.
  induction fuel as [|fuel IH]; intros ops c k chunks Hc Hmax Hmem Hk Hfuel;
    [lia|].
  cbn [chunkOps_loop]. cbv zeta.
  destruct (Z.ltb_spec (Z.of_nat (k * c)) (len ops)) as [Hlt|Hge];
    unfold len in Hlt || unfold len in Hge.
  - assert (Hkn : (k * c < length ops)%nat) by lia.
    assert (Hkt : (k < ceil_div (length ops) c)%nat)
      by (apply ceil_div_gt; assumption).
    assert (Hadd : int_add (Z.of_nat (k * c)) (Z.of_nat c)
                   = Z.of_nat (k * c) + Z.of_nat c).
    { unfold int_add. apply wrap_small.
      unfold in_memory, len in Hmem. unfold int_min, int_max in *.
      destruct k as [|k]; nia. }
    rewrite Hadd, slice_batch by assumption.
    replace (Z.of_nat (k * c) + Z.of_nat c) with (Z.of_nat (S k * c)) by lia.
    rewrite IH by (try assumption; lia).
    replace (ceil_div (length ops) c - k)%nat
      with (S (ceil_div (length ops) c - S k)) by lia.
    cbn [seq map]. rewrite <- app_assoc. reflexivity.
  - assert (Hkt : ~ (k < ceil_div (length ops) c)%nat)
      by (rewrite <- ceil_div_gt by assumption; lia).
    replace (ceil_div (length ops) c - k)%nat with 0%nat by lia.
    cbn [seq map]. now rewrite app_nil_r.
Qed.

(** With a positive chunk size and more steps than operations, [chunkOps]
    returns the plan of the specification. *)
Lemma chunkOps_refines_plan (fuel : nat) (ops : list TxnOp.t) (chunkSize : Z) :
  in_memory ops -> 0 < chunkSize <= int_max -> (length ops < fuel)%nat ->
  chunkOps fuel ops chunkSize = Returned (plan_spec ops (Z.to_nat chunkSize)).
Proof.
  intros Hmem Hc Hfuel. unfold chunkOps, plan_spec.
  pose proof (ceil_div_le (length ops) (Z.to_nat chunkSize)) as Hle.
  replace chunkSize with (Z.of_nat (Z.to_nat chunkSize)) at 1 by lia.
  change 0 with (Z.of_nat (0 * Z.to_nat chunkSize)).
  rewrite chunkOps_loop_plan; try lia; try assumption.
  now rewrite Nat.sub_0_r.
Qed.

(** With chunk size zero the loop never leaves a non-empty slice. *)
Lemma chunkOps_loop_zero (fuel : nat) :
  forall (ops : list TxnOp.t) (chunks : list (list TxnOp.t)),
    ops <> [] -> chunkOps_loop fuel ops 0 0 chunks = Running.
Proof.
  induction fuel as [|fuel IH]; intros ops chunks Hne; [reflexivity|].
  cbn [chunkOps_loop].
  assert (Hlen : 0 < len ops)
    by (destruct ops; [congruence|unfold len; cbn; lia]).
  destruct (Z.ltb_spec 0 (len ops)); [|lia].
  change (int_add 0 0) with 0.
  destruct (Z.gtb_spec 0 (len ops)); [lia|].
  unfold slice. cbn [Z.leb Z.compare andb].
  destruct (Z.leb_spec 0 (len ops)); [|lia].
  apply IH. assumption.
Qed.

(** With a negative chunk size the first slice expression panics. *)
Lemma chunkOps_negative (fuel : nat) (ops : list TxnOp.t) (chunkSize : Z) :
  ops <> [] -> int_min <= chunkSize < 0 ->
  chunkOps (S fuel) ops chunkSize = Panicked.
Proof.
  intros Hne Hc. unfold chunkOps. cbn [chunkOps_loop].
  assert (Hlen : 0 < len ops)
    by (destruct ops; [congruence|unfold len; cbn; lia]).
  destruct (Z.ltb_spec 0 (len ops)); [|lia].
  unfold int_add. rewrite Z.add_0_l, wrap_small by (unfold int_max in *; lia).
  destruct (Z.gtb_spec chunkSize (len ops)); [lia|].
  unfold slice.
  destruct (Z.leb_spec 0 chunkSize); [lia|]. reflexivity.
Qed.

(** ** The plan of the specification *)

Lemma plan_spec_length {A : Type} (ops : list A) (c : nat) :
  length (plan_spec ops c) = ceil_div (length ops) c.
Proof. unfold plan_spec. now rewrite length_map, length_seq. Qed.

Lemma plan_spec_lookup {A : Type} (ops : list A) (c k : nat) :
  (k < ceil_div (length ops) c)%nat ->
  plan_spec ops c !! k = Some (batch ops c k).
Proof.
  intros Hk. unfold plan_spec.
  rewrite list_lookup_fmap, lookup_seq_lt by assumption. reflexivity.
Qed.

Lemma batch_length {A : Type} (ops : list A) (c k : nat) :
  length (batch ops c k) = Nat.min c (length ops - k * c).
Proof. unfold batch. now rewrite length_take, length_drop. Qed.

Lemma concat_batches {A : Type} (ops : list A) (c : nat) (n : nat) :
  forall k : nat,
    (0 < c)%nat -> (length ops <= (k + n) * c)%nat ->
    concat (map (batch ops c) (seq k n)) = drop (k * c) ops.
Proof.
  induction n as [|n IH]; intros k Hc Hn; cbn [seq map concat].
  - rewrite drop_ge by lia. reflexivity.
  - rewrite IH by (try assumption; lia). unfold batch.
    replace (S k * c)%nat with (k * c + c)%nat by lia.
    rewrite <- drop_drop. apply take_drop.
Qed.

Lemma plan_spec_concat {A : Type} (ops : list A) (c : nat) :
  (0 < c)%nat -> concat (plan_spec ops c) = ops.
Proof.
  intros Hc. unfold plan_spec. rewrite concat_batches; try assumption.
  - reflexivity.
  - destruct (Nat.le_gt_cases (length ops) (ceil_div (length ops) c * c))
      as [|Hlt]; [lia|].
    apply ceil_div_gt in Hlt; [lia|assumption].
Qed.

(** ** The sync loop *)

Lemma executeTransaction_returns (c : ConsulClient) (ops : list TxnOp.t)
    (m : machine) :
  exists answer,
    transaction_result c (remote m) ops = Returned answer /\
    executeTransaction c ops m
    = (Returned answer,
       mkMachine (transaction_world c (remote m) ops) (printed m)).
Proof.
  destruct m as [w0 out].
  unfold transaction_result, transaction_world, executeTransaction.
  destruct (json_Marshal ops) as [jsonData|cause]; [|eexists; split; reflexivity].
  unfold bind, http_request, ret. cbn [remote printed].
  destruct (http_PUT w0 _ jsonData) as [w x]. cbn [remote printed].
  destruct x as [cause|cause|cause|status body];
    try (eexists; split; reflexivity).
  destruct (json_Unmarshal body) as [txnResp|cause];
    [|eexists; split; reflexivity].
  destruct (status =? 200); [eexists; split; reflexivity|].
  destruct (status =? 409); eexists; split; reflexivity.
Qed.

(** A response is returned exactly with no error or with a roll-back. *)
Lemma transaction_result_shape (c : ConsulClient) (w : world)
    (ops : list TxnOp.t) (txnResp : option TxnResponse.t) (err : option error) :
  transaction_result c w ops = Returned (txnResp, err) ->
  match err with
  | None => txnResp <> None
  | Some e =>
      if transport_level e then txnResp = None
      else match e with
           | ErrRolledBack n =>
               exists r, txnResp = Some r /\ n = len (TxnResponse.Errors r)
           | _ => txnResp = None
           end
  end.
Proof.
  unfold transaction_result, executeTransaction.
  destruct (json_Marshal ops) as [jsonData|cause];
    [|intros [= <- <-]; reflexivity].
  unfold bind, http_request, ret. cbn [remote printed].
  destruct (http_PUT w _ jsonData) as [w' x].
  destruct x as [cause|cause|cause|status body];
    try (intros [= <- <-]; reflexivity).
  destruct (json_Unmarshal body) as [r|cause];
    [|intros [= <- <-]; reflexivity].
  destruct (status =? 200); [intros [= <- <-]; discriminate|].
  destruct (status =? 409); intros [= <- <-]; cbn; eauto.
Qed.

Lemma syncBatch_spec (c : ConsulClient) (verbose : bool) (nChunks i : Z)
    (chunk : list TxnOp.t) (s : ExecutionSummary.t) (m : machine) :
  let r := batchResult c (remote m) i chunk in
  syncBatch c verbose nChunks i chunk s m
  = (Returned
       (ExecutionSummary.mk
          (ExecutionSummary.TotalKeys s)
          (ExecutionSummary.TotalBatches s)
          (if succeeded r then int_add (ExecutionSummary.SuccessBatches s) 1
           else ExecutionSummary.SuccessBatches s)
          (if succeeded r then ExecutionSummary.FailedBatches s
           else int_add (ExecutionSummary.FailedBatches s) 1)
          (ExecutionSummary.Results s ++ [r])),
     mkMachine
       (transaction_world c (remote m) chunk)
       (printed m ++
        if verbose
        then [OutProcessingBatch (int_add i 1) nChunks (len chunk)]
        else [])).
Proof.
  intros r. subst r. unfold syncBatch, batchResult.
  set (m1 := mkMachine (remote m)
               (printed m ++ if verbose
                             then [OutProcessingBatch (int_add i 1) nChunks (len chunk)]
                             else [])).
  assert (Hwhen : when verbose
            (print (OutProcessingBatch (int_add i 1) nChunks (len chunk))) m
          = (Returned tt, m1)).
  { subst m1. destruct verbose; cbn [when]; unfold print, ret; [reflexivity|].
    rewrite app_nil_r. now destruct m. }
  unfold bind at 1. rewrite Hwhen.
  destruct (executeTransaction_returns c chunk m1) as ([txnResp err] & Hres & Hex).
  unfold bind. rewrite Hex. subst m1. cbn [remote printed] in *.
  rewrite Hres.
  destruct err as [e|]; reflexivity.
Qed.

Lemma batchResults_length (c : ConsulClient) (chunks : list (list TxnOp.t)) :
  forall (w : world) (i : Z),
    length (batchResults c w i chunks) = length chunks.
Proof.
  induction chunks as [|chunk rest IH]; intros w i; cbn; [reflexivity|].
  now rewrite IH.
Qed.

Lemma batchResult_index (c : ConsulClient) (w : world) (i : Z)
    (chunk : list TxnOp.t) :
  BatchResult.BatchIndex (batchResult c w i chunk) = i /\
  BatchResult.ProcessedOps (batchResult c w i chunk) = len chunk.
Proof.
  unfold batchResult.
  destruct (transaction_result c w chunk) as [[txnResp [e|]]| |]; now split.
Qed.

Lemma batchResults_lookup (c : ConsulClient) (chunks : list (list TxnOp.t)) :
  forall (w : world) (i : Z) (j : nat) (chunk : list TxnOp.t),
    chunks !! j = Some chunk ->
    batchResults c w i chunks !! j
    = Some (batchResult c (submitted c w (take j chunks)) (i + Z.of_nat j) chunk).
Proof.
  induction chunks as [|chunk0 rest IH]; intros w i j chunk Hj; [discriminate|].
  destruct j as [|j]; cbn in Hj |- *.
  - injection Hj as ->. now rewrite Z.add_0_r.
  - rewrite (IH _ _ _ _ Hj). do 2 f_equal. lia.
Qed.

Lemma filter_partition_length {A : Type} (f : A -> bool) (l : list A) :
  len (List.filter f l) + len (List.filter (fun x => negb (f x)) l) = len l.
Proof.
  unfold len. induction l as [|x l IH]; cbn; [reflexivity|].
  destruct (f x); cbn; lia.
Qed.

Lemma filter_length_bound {A : Type} (f : A -> bool) (l : list A) :
  0 <= len (List.filter f l) <= len l.
Proof.
  unfold len. pose proof (List.filter_length_le f l). lia.
Qed.

Lemma syncBatches_spec (c : ConsulClient) (verbose : bool) (nChunks : Z)
    (chunks : list (list TxnOp.t)) :
  forall (i : Z) (s : ExecutionSummary.t) (m : machine),
  exists (s' : ExecutionSummary.t) (m' : machine),
    syncBatches c verbose nChunks i chunks s m = (Returned s', m') /\
    ExecutionSummary.TotalKeys s' = ExecutionSummary.TotalKeys s /\
    ExecutionSummary.TotalBatches s' = ExecutionSummary.TotalBatches s /\
    ExecutionSummary.Results s'
    = ExecutionSummary.Results s ++ batchResults c (remote m) i chunks /\
    remote m' = submitted c (remote m) chunks /\
    (0 <= ExecutionSummary.SuccessBatches s ->
     0 <= ExecutionSummary.FailedBatches s ->
     ExecutionSummary.SuccessBatches s + ExecutionSummary.FailedBatches s
       + len chunks <= int_max ->
     ExecutionSummary.SuccessBatches s'
     = ExecutionSummary.SuccessBatches s
       + len (List.filter succeeded (batchResults c (remote m) i chunks)) /\
     ExecutionSummary.FailedBatches s'
     = ExecutionSummary.FailedBatches s
       + len (List.filter failed (batchResults c (remote m) i chunks))).
Proof.
  induction chunks as [|chunk rest IH]; intros i s m.
  - exists s, m. cbn. rewrite app_nil_r. unfold len; cbn.
    repeat split; lia.
  - cbn [syncBatches batchResults]. unfold bind at 1.
    rewrite syncBatch_spec.
    set (r := batchResult c (remote m) i chunk).
    match goal with
    | |- context [syncBatches _ _ _ _ _ ?s1 ?m1] =>
        destruct (IH (i + 1) s1 m1)
          as (s' & m' & Hrun & Hkeys & Htotal & Hres & Hworld & Hcount)
    end.
    exists s', m'. cbn [remote printed ExecutionSummary.TotalKeys
      ExecutionSummary.TotalBatches ExecutionSummary.Results
      ExecutionSummary.SuccessBatches ExecutionSummary.FailedBatches] in *.
    split; [exact Hrun|]. split; [exact Hkeys|]. split; [exact Htotal|].
    split; [rewrite Hres, <- app_assoc; reflexivity|].
    split; [exact Hworld|].
    intros Hs Hf Hbound.
    assert (Hlen : len (chunk :: rest) = 1 + len rest)
      by (unfold len; cbn [length]; lia).
    pose proof (len_nonneg rest) as Hrest.
    assert (Hsucc : int_add (ExecutionSummary.SuccessBatches s) 1
                    = ExecutionSummary.SuccessBatches s + 1)
      by (apply wrap_small; unfold int_min, int_max in *; lia).
    assert (Hfail : int_add (ExecutionSummary.FailedBatches s) 1
                    = ExecutionSummary.FailedBatches s + 1)
      by (apply wrap_small; unfold int_min, int_max in *; lia).
    rewrite Hsucc, Hfail in Hcount.
    cbn [List.filter].
    replace (failed r) with (negb (succeeded r)) by reflexivity.
    revert Hcount.
    destruct (succeeded r) eqn:Hr; cbn [negb]; intros Hcount;
      (destruct Hcount as [Hc1 Hc2]; [lia|lia|lia|]);
      rewrite Hc1, Hc2; unfold len; cbn [length]; split; lia.
Qed.

Lemma batchResults_indices (c : ConsulClient) (chunks : list (list TxnOp.t)) :
  forall (w : world) (i : nat),
    map BatchResult.BatchIndex (batchResults c w (Z.of_nat i) chunks)
    = map Z.of_nat (seq i (length chunks)) /\
    map BatchResult.ProcessedOps (batchResults c w (Z.of_nat i) chunks)
    = map len chunks.
Proof.
  induction chunks as [|chunk rest IH]; intros w i; cbn; [now split|].
  destruct (batchResult_index c w (Z.of_nat i) chunk) as [-> ->].
  replace (Z.of_nat i + 1) with (Z.of_nat (S i)) by lia.
  destruct (IH (transaction_world c w chunk) (S i)) as [-> ->]. now split.
Qed.

Lemma planned_length (pairs : list KVPair.t) :
  in_memory pairs -> len (planned pairs) <= 2 ^ 62.
Proof.
  unfold in_memory, planned, len. intros Hmem.
  rewrite plan_spec_length.
  pose proof (ceil_div_le (length (createTransactionOps pairs))
                (Z.to_nat MaxOpsPerTransaction)) as Hle.
  unfold createTransactionOps in *. rewrite length_map in *.
  unfold MaxOpsPerTransaction in *. lia.
Qed.

(** The call of [chunkOps] in [syncKVPairs] returns the planned batches. *)
Lemma chunkOps_planned (pairs : list KVPair.t) (fuel : nat) :
  in_memory pairs -> (length pairs < fuel)%nat ->
  chunkOps fuel (createTransactionOps pairs) MaxOpsPerTransaction
  = Returned (planned pairs).
Proof.
  intros Hmem Hfuel. unfold planned. apply chunkOps_refines_plan.
  - now apply in_memory_map.
  - unfold MaxOpsPerTransaction, int_max. lia.
  - unfold createTransactionOps. now rewrite length_map.
Qed.

(** What [syncKVPairs] returns and leaves behind. *)
Lemma syncKVPairs_spec (c : ConsulClient) (pairs : list KVPair.t)
    (verbose : bool) (m : machine) :
  in_memory pairs ->
  exists (s : ExecutionSummary.t) (m' : machine),
    syncKVPairs c pairs verbose m = (Returned (Some s, None), m') /\
    ExecutionSummary.TotalKeys s = len pairs /\
    ExecutionSummary.TotalBatches s = len (planned pairs) /\
    ExecutionSummary.Results s = batchResults c (remote m) 0 (planned pairs) /\
    ExecutionSummary.SuccessBatches s
    = len (List.filter succeeded (ExecutionSummary.Results s)) /\
    ExecutionSummary.FailedBatches s
    = len (List.filter failed (ExecutionSummary.Results s)) /\
    remote m' = submitted c (remote m) (planned pairs).
Proof.
  intros Hmem. unfold syncKVPairs.
  rewrite chunkOps_planned
    by (try assumption; unfold createTransactionOps; rewrite length_map; lia).
  unfold bind at 1, lift.
  set (s0 := ExecutionSummary.mk (len pairs) (len (planned pairs)) 0 0 []).
  set (m1 := mkMachine (remote m)
               (printed m ++ if verbose
                             then [OutSyncingBatches (len pairs) (len (planned pairs))]
                             else [])).
  assert (Hwhen : when verbose
            (print (OutSyncingBatches (len pairs) (len (planned pairs)))) m
          = (Returned tt, m1)).
  { subst m1. destruct verbose; cbn [when]; unfold print, ret; [reflexivity|].
    rewrite app_nil_r. now destruct m. }
  unfold bind at 1. rewrite Hwhen.
  destruct (syncBatches_spec c verbose (len (planned pairs)) (planned pairs)
              0 s0 m1)
    as (s & m' & Hrun & Hkeys & Htotal & Hres & Hworld & Hcount).
  unfold bind, ret. rewrite Hrun.
  exists s, m'. subst s0 m1.
  cbn [remote printed ExecutionSummary.TotalKeys ExecutionSummary.TotalBatches
       ExecutionSummary.Results ExecutionSummary.SuccessBatches
       ExecutionSummary.FailedBatches app] in *.
  pose proof (planned_length pairs Hmem) as Hlen.
  destruct Hcount as [Hc1 Hc2]; [lia|lia|unfold int_max; lia|].
  rewrite Hres. repeat split; try assumption; lia.
Qed.

Lemma filter_nonempty {A : Type} (f : A -> bool) (l : list A) (j : nat) (x : A) :
  l !! j = Some x -> f x = true -> 0 < len (List.filter f l).
Proof.
  intros Hj Hx.
  assert (Hin : In x (List.filter f l)).
  { apply List.filter_In. split; [|assumption].
    apply list_elem_of_In. eapply list_elem_of_lookup_2. eassumption. }
  unfold len. destruct (List.filter f l); [destruct Hin|cbn; lia].
Qed.

(** The record of a batch whose submission failed at the transport level. *)
Lemma batchResults_transport (c : ConsulClient) (w : world)
    (chunks : list (list TxnOp.t)) (j : nat) (chunk : list TxnOp.t)
    (txnResp : option TxnResponse.t) (e : error) :
  chunks !! j = Some chunk ->
  transaction_result c (submitted c w (take j chunks)) chunk
  = Returned (txnResp, Some e) ->
  transport_level e = true ->
  batchResults c w 0 chunks !! j
  = Some (BatchResult.mk (Z.of_nat j) false (Some e) [] (len chunk)).
Proof.
  intros Hj Hanswer Htransport.
  assert (Hnone : txnResp = None).
  { pose proof (transaction_result_shape _ _ _ _ _ Hanswer) as Hshape.
    cbn in Hshape. now rewrite Htransport in Hshape. }
  subst txnResp.
  rewrite (batchResults_lookup _ _ _ _ _ _ Hj).
  unfold batchResult. rewrite Hanswer. reflexivity.
Qed.

Lemma filter_lookup_In {A : Type} (f : A -> bool) (l : list A) (j : nat) (x : A) :
  l !! j = Some x -> f x = true -> In x (List.filter f l).
Proof.
  intros Hj Hx. apply List.filter_In. split; [|assumption].
  apply list_elem_of_In. eapply list_elem_of_lookup_2. eassumption.
Qed.

(** What [syncToConsul] returns, prints last and leaves behind. *)
Lemma syncToConsul_spec (allPairs : list KVPair.t)
    (consulAddr datacenter : string) (verbose : bool) (m : machine) :
  in_memory allPairs ->
  exists (s : ExecutionSummary.t) (m' : machine),
    syncToConsul allPairs consulAddr datacenter verbose m
    = (Returned
         (if ExecutionSummary.FailedBatches s >? 0
          then Some (ErrBatchesFailed (ExecutionSummary.FailedBatches s)
                                      (ExecutionSummary.TotalBatches s))
          else None), m') /\
    ExecutionSummary.Results s
    = batchResults (NewConsulClient consulAddr datacenter) (remote m) 0
                   (planned allPairs) /\
    ExecutionSummary.FailedBatches s
    = len (List.filter failed (ExecutionSummary.Results s)) /\
    ExecutionSummary.TotalBatches s = len (planned allPairs) /\
    last (printed m') = Some (OutSummary s) /\
    remote m'
    = submitted (NewConsulClient consulAddr datacenter) (remote m)
                (planned allPairs).
Proof.
  intros Hmem. unfold syncToConsul.
  set (m0 := mkMachine (remote m) (printed m ++ [OutSyncingTo (len allPairs)])).
  destruct (syncKVPairs_spec (NewConsulClient consulAddr datacenter)
              allPairs verbose m0 Hmem)
    as (s & m1 & Hrun & _ & Htotal & Hres & _ & Hfail & Hworld).
  exists s.
  unfold bind at 1. unfold print at 1. fold m0.
  unfold bind at 1. rewrite Hrun.
  unfold bind, print, ret.
  destruct (ExecutionSummary.FailedBatches s >? 0);
    (eexists; split; [reflexivity|]; cbn [remote printed];
     split; [exact Hres|]; split; [exact Hfail|]; split; [exact Htotal|];
     split; [apply last_snoc|exact Hworld]).
Qed.

(** Every operation is in one of the planned batches. *)
Lemma planned_In (pairs : list KVPair.t) (op : TxnOp.t) :
  In op (createTransactionOps pairs) ->
  exists (j : nat) (chunk : list TxnOp.t),
    planned pairs !! j = Some chunk /\ In op chunk.
Proof.
  intros Hop.
  rewrite <- (plan_spec_concat (createTransactionOps pairs)
                (Z.to_nat MaxOpsPerTransaction)) in Hop
    by (unfold MaxOpsPerTransaction; lia).
  apply in_concat in Hop as (chunk & Hchunk & Hin).
  apply list_elem_of_In, list_elem_of_lookup_1 in Hchunk as [j Hj].
  exists j, chunk. now split.
Qed.

(** ** The flattener *)

(** Induction on values, with the hypothesis for every value inside a
    sequence or a mapping. *)
Lemma value_nested_ind (P : value -> Prop)
    (HNil : P VNil)
    (HString : forall s, P (VString s))
    (HInt : forall n, P (VInt n))
    (HBool : forall b, P (VBool b))
    (HFloat : forall text, P (VFloat text))
    (HSeq : forall elems, Forall P elems -> P (VSeq elems))
    (HMapS : forall entries,
        Forall (fun e => P (snd e)) entries -> P (VMapS entries))
    (HMapI : forall entries,
        Forall (fun e => P (fst e) /\ P (snd e)) entries -> P (VMapI entries)) :
  forall v, P v.
Proof.
  fix IH 1. intros [| s | n | b | text | elems | es | es].
  - exact HNil.
  - apply HString.
  - apply HInt.
  - apply HBool.
  - apply HFloat.
  - apply HSeq. induction elems as [|x rest IHrest]; constructor;
      [apply IH|exact IHrest].
  - apply HMapS. induction es as [|[k x] rest IHrest]; constructor;
      [apply IH|exact IHrest].
  - apply HMapI. induction es as [|[k x] rest IHrest]; constructor;
      [split; apply IH|exact IHrest].
Qed.

(** The two mapping cases of [processValue] are the calls the source makes. *)
Lemma processValue_VMapS (key : string) (entries : list (string * value)) :
  processValue key (VMapS entries) = flattenKVPairs entries key.
Proof.
  unfold flattenKVPairs. cbn [processValue].
  induction entries as [|[k x] rest IH]; cbn [flat_map]; [reflexivity|].
  now rewrite IH.
Qed.

Lemma processValue_VMapI (key : string) (entries : list (value * value)) :
  processValue key (VMapI entries) = processInterfaceMap key entries.
Proof.
  unfold processInterfaceMap, flattenKVPairs, convertedMap. cbn [processValue].
  induction entries as [|[k x] rest IH]; [reflexivity|].
  destruct k; cbn [omap list_omap flat_map]; rewrite IH; reflexivity.
Qed.

Lemma processValue_leaf (key : string) (v : value) :
  is_mapping v = false -> processValue key v = [KVPair.mk key (Sprintf_v v)].
Proof. destruct v; (discriminate || reflexivity). Qed.

Lemma convertedMap_In (m : list (value * value)) (k : string) (x : value) :
  In (k, x) (convertedMap m) <-> In (VString k, x) m.
Proof.
  unfold convertedMap. rewrite <- !list_elem_of_In, list_elem_of_omap.
  split.
  - intros ([k0 x0] & Hin & Heq). destruct k0; try discriminate.
    injection Heq as -> ->. exact Hin.
  - intros Hin. exists (VString k, x). split; [exact Hin|reflexivity].
Qed.

Lemma reaches_leaf (key : string) (v : value) (key' : string) (v' : value) :
  is_mapping v = false -> reaches key v key' v' -> key' = key /\ v' = v.
Proof. intros Hv Hr. destruct Hr; (discriminate || now split). Qed.

(** The entries [processValue] emits are the renderings of the values that
    are reached and are not mappings. *)
Lemma processValue_spec (v : value) :
  forall (key : string) (pair : KVPair.t),
    In pair (processValue key v) <->
    exists (key' : string) (v' : value),
      reaches key v key' v' /\ is_mapping v' = false /\
      pair = KVPair.mk key' (Sprintf_v v').
Proof.
  induction v as [| s | n | b | text | elems _ | es IH | es IH]
    using value_nested_ind; intros key pair.
  1-6: rewrite processValue_leaf by reflexivity; cbn [In]; split;
    [ intros [<-|[]]; eexists _, _; split; [apply reaches_here|];
      split; reflexivity
    | intros (key' & v' & Hr & Hv & ->);
      apply reaches_leaf in Hr as [-> ->]; [now left|reflexivity] ].
  - rewrite processValue_VMapS. unfold flattenKVPairs. rewrite in_flat_map.
    split.
    + intros ([k x] & Hin & Hpair).
      rewrite List.Forall_forall in IH. apply (IH _ Hin) in Hpair.
      destruct Hpair as (key' & v' & Hr & Hv & ->).
      exists key', v'. split; [|now split].
      eapply reaches_string_key; eassumption.
    + intros (key' & v' & Hr & Hv & ->).
      inversion Hr as [| ? ? k x ? ? Hin Hr' |]; subst; [discriminate|].
      exists (k, x). split; [exact Hin|].
      rewrite List.Forall_forall in IH. apply (IH _ Hin). eauto.
  - rewrite processValue_VMapI. unfold processInterfaceMap, flattenKVPairs.
    rewrite in_flat_map. split.
    + intros ([k x] & Hin & Hpair). apply convertedMap_In in Hin.
      rewrite List.Forall_forall in IH. apply (IH _ Hin) in Hpair.
      destruct Hpair as (key' & v' & Hr & Hv & ->).
      exists key', v'. split; [|now split].
      eapply reaches_interface_key; eassumption.
    + intros (key' & v' & Hr & Hv & ->).
      inversion Hr as [| | ? ? k x ? ? Hin Hr']; subst; [discriminate|].
      exists (k, x). split; [now apply convertedMap_In|].
      rewrite List.Forall_forall in IH. apply (IH _ Hin). eauto.
Qed.

Lemma flattenKVPairs_spec (data : yaml_map) (prefix : string) (pair : KVPair.t) :
  In pair (flattenKVPairs data prefix) <->
  exists (key : string) (v : value),
    reaches prefix (VMapS data) key v /\ is_mapping v = false /\
    pair = KVPair.mk key (Sprintf_v v).
Proof. rewrite <- processValue_VMapS. apply processValue_spec. Qed.

(** The order in which a mapping is ranged over only permutes the result. *)
Lemma flattenKVPairs_Permutation (data data' : yaml_map) (prefix : string) :
  Permutation data data' ->
  Permutation (flattenKVPairs data prefix) (flattenKVPairs data' prefix).
Proof.
  intros Hperm. unfold flattenKVPairs.
  induction Hperm as [|[k x] l l' _ IH|[k x] [k' x'] l|l1 l2 l3 _ IH1 _ IH2];
    cbn [flat_map].
  - constructor.
  - now apply Permutation_app_head.
  - rewrite !app_assoc. apply Permutation_app_tail, Permutation_app_comm.
  - now transitivity (flat_map (fun '(key, v) => processValue (buildKey prefix key) v) l2).
Qed.

(** In a mapping with keys of any kind only the entries under a string key
    contribute: [processInterfaceMap] copies no other entry. *)
Lemma processValue_VMapI_entries (key : string) (entries : list (value * value)) :
  processValue key (VMapI entries)
  = flat_map (fun '(k, x) =>
                match k with
                | VString strKey => processValue (buildKey key strKey) x
                | _ => []
                end) entries.
Proof.
  cbn [processValue].
  induction entries as [|[k x] rest IH]; [reflexivity|].
  destruct k; cbn [flat_map app]; rewrite IH; reflexivity.
Qed.

Lemma processValue_VMapI_In (key : string) (entries : list (value * value))
    (pair : KVPair.t) :
  In pair (processValue key (VMapI entries)) <->
  exists (strKey : string) (x : value),
    In (VString strKey, x) entries /\
    In pair (processValue (buildKey key strKey) x).
Proof.
  rewrite processValue_VMapI_entries, in_flat_map. split.
  - intros ([k x] & Hin & Hpair). destruct k; try destruct Hpair. eauto.
  - intros (strKey & x & Hin & Hpair). exists (VString strKey, x). now split.
Qed.

(** The text of a sequence: its elements in their [%v] text, separated by
    one space, between brackets. *)
Lemma Sprintf_v_VSeq (elems : list value) :
  Sprintf_v (VSeq elems)
  = ("[" ++ String.concat " " (map Sprintf_v elems) ++ "]")%string.
Proof.
  cbn [Sprintf_v]. do 2 f_equal.
  induction elems as [|x rest IH]; [reflexivity|].
  destruct rest as [|y rest]; [reflexivity|].
  cbn [map String.concat] in IH |- *. now rewrite IH.
Qed.

Lemma processValue_VMapI_drop (key : string)
    (entries1 entries2 : list (value * value)) (k x : value) :
  (forall strKey : string, k <> VString strKey) ->
  processValue key (VMapI (entries1 ++ (k, x) :: entries2))
  = processValue key (VMapI (entries1 ++ entries2)).
Proof.
  intros Hk. rewrite !processValue_VMapI_entries, !flat_map_app.
  cbn [flat_map]. destruct k; try reflexivity. now destruct (Hk s).
Qed.

(** ** The order on strings *)

Lemma compare_as_OT (a b : string) :
  String.compare a b = String_as_OT.compare a b.
Proof.
  revert b. induction a as [|x a IH]; intros [|y b]; cbn; try reflexivity;
    rewrite IH; reflexivity.
Qed.

Lemma ltb_lt (a b : string) : String.ltb a b = true <-> String_as_OT.lt a b.
Proof.
  unfold String.ltb, String_as_OT.lt. rewrite compare_as_OT.
  destruct (String_as_OT.compare a b); split; congruence.
Qed.

Lemma ltb_irrefl (a : string) : String.ltb a a = false.
Proof.
  destruct (String.ltb a a) eqn:E; [|reflexivity].
  apply ltb_lt in E. now apply (StrictOrder_Irreflexive (R := String_as_OT.lt)) in E.
Qed.

Lemma ltb_trans (a b c : string) :
  String.ltb a b = true -> String.ltb b c = true -> String.ltb a c = true.
Proof.
  rewrite !ltb_lt. apply (StrictOrder_Transitive (R := String_as_OT.lt)).
Qed.

Lemma ltb_total (a b : string) :
  a <> b -> String.ltb a b = true \/ String.ltb b a = true.
Proof.
  intros Hne. rewrite !ltb_lt.
  destruct (String_as_OT.compare_spec a b) as [Heq|Hlt|Hgt]; auto.
  now destruct Hne.
Qed.

(** ** Sorting by key *)

Lemma sort_insert_Permutation (x : DuplicateInfo.t) (l : list DuplicateInfo.t) :
  Permutation (sort_insert x l) (x :: l).
Proof.
  induction l as [|y l IH]; cbn [sort_insert]; [reflexivity|].
  destruct (less y x); [|reflexivity].
  rewrite IH. apply perm_swap.
Qed.

Lemma sort_Slice_Permutation (l : list DuplicateInfo.t) :
  Permutation (sort_Slice l) l.
Proof.
  unfold sort_Slice. induction l as [|x l IH]; cbn [foldr]; [reflexivity|].
  rewrite sort_insert_Permutation. now constructor.
Qed.

Lemma sort_insert_sorted (x : DuplicateInfo.t) (l : list DuplicateInfo.t) :
  ~ In (DuplicateInfo.Key x) (map DuplicateInfo.Key l) ->
  StronglySorted key_lt l -> StronglySorted key_lt (sort_insert x l).
Proof.
  intros Hfresh Hsorted.
  induction Hsorted as [|y l Hl IH Hy]; cbn [sort_insert].
  - repeat constructor.
  - cbn [map In] in Hfresh.
    destruct (less y x) eqn:Hyx.
    + constructor; [apply IH; tauto|].
      rewrite (sort_insert_Permutation x l). constructor; assumption.
    + assert (Hxy : key_lt x y).
      { unfold key_lt, less in *.
        destruct (ltb_total (DuplicateInfo.Key x) (DuplicateInfo.Key y))
          as [H|H]; [intros E; apply Hfresh; now left|exact H|congruence]. }
      constructor; [now constructor|].
      constructor; [exact Hxy|].
      eapply Forall_impl; [exact Hy|].
      intros z Hz. unfold key_lt, less in *. eapply ltb_trans; eassumption.
Qed.

Lemma sort_Slice_sorted (l : list DuplicateInfo.t) :
  List.NoDup (map DuplicateInfo.Key l) -> StronglySorted key_lt (sort_Slice l).
Proof.
  unfold sort_Slice. induction l as [|x l IH]; cbn [foldr map]; intros Hnd.
  - constructor.
  - inversion Hnd as [|? ? Hfresh Hnd']; subst.
    apply sort_insert_sorted; [|now apply IH].
    intros Hin. apply Hfresh.
    eapply Permutation_in; [|exact Hin].
    apply Permutation_map, sort_Slice_Permutation.
Qed.

Lemma key_lt_sorted_NoDup (l : list DuplicateInfo.t) :
  StronglySorted key_lt l -> List.NoDup (map DuplicateInfo.Key l).
Proof.
  induction 1 as [|x l Hl IH Hx]; cbn [map]; constructor; [|exact IH].
  intros Hin. apply in_map_iff in Hin as (y & Heq & Hy).
  rewrite List.Forall_forall in Hx. specialize (Hx y Hy).
  unfold key_lt, less in Hx. rewrite Heq, ltb_irrefl in Hx. discriminate.
Qed.

(** Two slices sorted by key that hold the same records are the same slice:
    whatever algorithm [sort.Slice] runs, it returns [sort_Slice]. *)
Lemma sort_Slice_unique (l sorted : list DuplicateInfo.t) :
  List.NoDup (map DuplicateInfo.Key l) ->
  Permutation sorted l -> StronglySorted key_lt sorted ->
  sorted = sort_Slice l.
Proof.
  intros Hnd Hperm Hsorted.
  apply (StronglySorted_unique_strong key_lt);
    [|exact Hsorted|now apply sort_Slice_sorted
     |now rewrite sort_Slice_Permutation].
  intros x y _ _ Hxy Hyx. unfold key_lt, less in *.
  pose proof (ltb_trans _ _ _ Hxy Hyx) as Hxx.
  rewrite ltb_irrefl in Hxx. discriminate.
Qed.

Lemma key_lt_sorted_unique (l1 l2 : list DuplicateInfo.t) :
  StronglySorted key_lt l1 -> StronglySorted key_lt l2 ->
  (forall d, In d l1 <-> In d l2) -> l1 = l2.
Proof.
  intros H1 H2 Hsame.
  apply (StronglySorted_unique_strong key_lt); try assumption.
  - intros x y _ _ Hxy Hyx. unfold key_lt, less in *.
    pose proof (ltb_trans _ _ _ Hxy Hyx) as Hxx.
    rewrite ltb_irrefl in Hxx. discriminate.
  - apply Stdlib.Sorting.Permutation.NoDup_Permutation; [| |exact Hsame];
      eapply NoDup_map_inv; apply key_lt_sorted_NoDup; assumption.
Qed.

(** ** The key tracker *)

Lemma foldl_track (filename : string) (pairs : list KVPair.t) :
  forall keyTracker : gmap string (list FileSource.t),
    foldl (track filename) keyTracker pairs
    = foldl track_entry keyTracker (map (tagged filename) pairs).
Proof.
  induction pairs as [|pair rest IH]; intros keyTracker; cbn [foldl map];
    [reflexivity|].
  apply IH.
Qed.

Lemma trackAll_entries (kvMaps : list yaml_map) (filenames : list string) :
  trackAll kvMaps filenames = foldl track_entry ∅ (entries kvMaps filenames).
Proof.
  unfold trackAll, entries.
  generalize (∅ : gmap string (list FileSource.t)) as keyTracker.
  induction (zip kvMaps filenames) as [|[kvMap filename] rest IH];
    intros keyTracker; cbn [foldl flat_map]; [reflexivity|].
  rewrite foldl_app, IH, foldl_track. reflexivity.
Qed.

Lemma occurrences_cons (key : string) (e : string * FileSource.t)
    (es : list (string * FileSource.t)) :
  occurrences key (e :: es)
  = if String.eqb (fst e) key then snd e :: occurrences key es
    else occurrences key es.
Proof. unfold occurrences. cbn [List.filter]. now destruct (String.eqb _ _). Qed.

Lemma track_lookup (key : string) (es : list (string * FileSource.t)) :
  forall keyTracker : gmap string (list FileSource.t),
    foldl track_entry keyTracker es !! key
    = match occurrences key es with
      | [] => keyTracker !! key
      | occ => Some (default [] (keyTracker !! key) ++ occ)
      end.
Proof.
  induction es as [|e es IH]; intros keyTracker; [reflexivity|].
  cbn [foldl]. rewrite IH, occurrences_cons. unfold track_entry.
  destruct (String.eqb_spec (fst e) key) as [->|Hne].
  - rewrite lookup_insert_eq.
    destruct (occurrences key es) as [|src occ]; [reflexivity|].
    cbn [default from_option id]. now rewrite <- app_assoc.
  - now rewrite lookup_insert_ne by assumption.
Qed.

Lemma trackAll_lookup (kvMaps : list yaml_map) (filenames : list string)
    (key : string) :
  trackAll kvMaps filenames !! key
  = match occurrences key (entries kvMaps filenames) with
    | [] => None
    | occ => Some occ
    end.
Proof.
  rewrite trackAll_entries, track_lookup, lookup_empty.
  now destruct (occurrences key _).
Qed.

Lemma findDuplicates_In (visit : list (string * list FileSource.t))
    (d : DuplicateInfo.t) :
  In d (findDuplicates visit) <->
  In (DuplicateInfo.Key d, DuplicateInfo.Files d) visit /\
  len (DuplicateInfo.Files d) > 1.
Proof.
  unfold findDuplicates. rewrite <- !list_elem_of_In, list_elem_of_omap.
  split.
  - intros ([key sources] & Hin & Hd).
    destruct (Z.gtb_spec (len sources) 1); [|discriminate].
    injection Hd as <-. cbn. split; [exact Hin|lia].
  - intros [Hin Hlen]. exists (DuplicateInfo.Key d, DuplicateInfo.Files d).
    split; [exact Hin|].
    destruct (Z.gtb_spec (len (DuplicateInfo.Files d)) 1); [|lia].
    now destruct d.
Qed.

Lemma findDuplicates_cons (key : string) (sources : list FileSource.t)
    (visit : list (string * list FileSource.t)) :
  findDuplicates ((key, sources) :: visit)
  = if len sources >? 1
    then DuplicateInfo.mk key sources :: findDuplicates visit
    else findDuplicates visit.
Proof. unfold findDuplicates. cbn. now destruct (len sources >? 1). Qed.

Lemma findDuplicates_keys (visit : list (string * list FileSource.t)) :
  List.NoDup (map fst visit) ->
  List.NoDup (map DuplicateInfo.Key (findDuplicates visit)).
Proof.
  induction visit as [|[key sources] rest IH]; intros Hnd; [constructor|].
  cbn [map fst] in Hnd. inversion Hnd as [|? ? Hfresh Hnd']; subst.
  rewrite findDuplicates_cons.
  destruct (len sources >? 1); [|now apply IH].
  cbn [map DuplicateInfo.Key]. constructor; [|now apply IH].
  intros Hin. apply Hfresh.
  apply in_map_iff in Hin as (d & <- & Hd).
  apply findDuplicates_In in Hd as [Hd _].
  apply in_map_iff. now exists (DuplicateInfo.Key d, DuplicateInfo.Files d).
Qed.

Lemma findDuplicates_Permutation (visit visit' : list (string * list FileSource.t)) :
  Permutation visit visit' ->
  Permutation (findDuplicates visit) (findDuplicates visit').
Proof.
  induction 1 as [|[k s] l l' _ IH|[k s] [k' s'] l|l1 l2 l3 _ IH1 _ IH2];
    rewrite ?findDuplicates_cons.
  - constructor.
  - destruct (len s >? 1); [now constructor|assumption].
  - destruct (len s >? 1), (len s' >? 1); try reflexivity. apply perm_swap.
  - etransitivity; eassumption.
Qed.

Lemma map_to_list_keys (keyTracker : gmap string (list FileSource.t)) :
  List.NoDup (map fst (map_to_list keyTracker)).
Proof. apply NoDup_ListNoDup, (NoDup_fst_map_to_list keyTracker). Qed.

(** The order in which the second loop visits [keyTracker] does not show in
    what [detectDuplicates] returns. *)
Lemma detectDuplicates_any_visit (keyTracker : gmap string (list FileSource.t))
    (visit : list (string * list FileSource.t)) :
  Permutation visit (map_to_list keyTracker) ->
  sort_Slice (findDuplicates visit)
  = sort_Slice (findDuplicates (map_to_list keyTracker)).
Proof.
  intros Hperm.
  apply sort_Slice_unique.
  - apply findDuplicates_keys, map_to_list_keys.
  - rewrite sort_Slice_Permutation. now apply findDuplicates_Permutation.
  - apply sort_Slice_sorted, findDuplicates_keys.
    eapply Stdlib.Sorting.Permutation.Permutation_NoDup;
      [|apply map_to_list_keys].
    apply Permutation_map. symmetry. exact Hperm.
Qed.

(** What [detectDuplicates] returns when the lengths agree. *)
Lemma detectDuplicates_spec (kvMaps : list yaml_map) (filenames : list string) :
  length kvMaps = length filenames ->
  exists duplicates : list DuplicateInfo.t,
    detectDuplicates kvMaps filenames = (duplicates, None) /\
    (forall d : DuplicateInfo.t,
        In d duplicates <->
        DuplicateInfo.Files d
        = occurrences (DuplicateInfo.Key d) (entries kvMaps filenames) /\
        (2 <= length (DuplicateInfo.Files d))%nat) /\
    StronglySorted key_lt duplicates.
Proof.
  intros Hlen. unfold detectDuplicates.
  replace (len kvMaps =? len filenames) with true
    by (symmetry; apply Z.eqb_eq; unfold len; lia).
  cbn [negb]. eexists. split; [reflexivity|]. split.
  - intros d. split.
    + intros Hin.
      eapply Permutation_in in Hin; [|apply sort_Slice_Permutation].
      apply findDuplicates_In in Hin as [Hin Hgt].
      apply list_elem_of_In, elem_of_map_to_list in Hin.
      rewrite trackAll_lookup in Hin. unfold len in Hgt.
      destruct (occurrences _ _); [discriminate|].
      injection Hin as ->. split; [reflexivity|lia].
    + intros [Hfiles Htwo].
      eapply Permutation_in; [symmetry; apply sort_Slice_Permutation|].
      apply findDuplicates_In. split; [|unfold len; lia].
      apply list_elem_of_In, elem_of_map_to_list.
      rewrite trackAll_lookup, <- Hfiles.
      destruct (DuplicateInfo.Files d); [cbn in Htwo; lia|reflexivity].
  - apply sort_Slice_sorted, findDuplicates_keys, map_to_list_keys.
Qed.

(** ** Occurrences and sources *)

Lemma occurrences_In (key : string) (es : list (string * FileSource.t))
    (src : FileSource.t) :
  In src (occurrences key es) <-> In (key, src) es.
Proof.
  unfold occurrences. rewrite in_map_iff. split.
  - intros ([k s] & <- & Hin). apply List.filter_In in Hin as [Hin Hk].
    cbn in Hk. apply String.eqb_eq in Hk as ->. exact Hin.
  - intros Hin. exists (key, src). split; [reflexivity|].
    apply List.filter_In. split; [exact Hin|]. cbn. apply String.eqb_refl.
Qed.

Lemma occurrences_app (key : string) (es es' : list (string * FileSource.t)) :
  occurrences key (es ++ es') = occurrences key es ++ occurrences key es'.
Proof. unfold occurrences. now rewrite List.filter_app, map_app. Qed.

Lemma occurrences_Permutation (key : string)
    (es es' : list (string * FileSource.t)) :
  Permutation es es' -> Permutation (occurrences key es) (occurrences key es').
Proof.
  induction 1 as [|e l l' _ IH|e e' l|l1 l2 l3 _ IH1 _ IH2];
    rewrite ?occurrences_cons.
  - constructor.
  - destruct (String.eqb _ _); [now constructor|assumption].
  - destruct (String.eqb (fst e) key), (String.eqb (fst e') key);
      try reflexivity. apply perm_swap.
  - etransitivity; eassumption.
Qed.

Lemma entries_cons (kvMap : yaml_map) (kvMaps : list yaml_map)
    (filename : string) (filenames : list string) :
  entries (kvMap :: kvMaps) (filename :: filenames)
  = map (tagged filename) (flattenKVPairs kvMap "") ++ entries kvMaps filenames.
Proof. reflexivity. Qed.

Lemma entries_of_sources (srcs : list (yaml_map * string)) :
  entries (map fst srcs) (map snd srcs)
  = flat_map (fun '(kvMap, filename) =>
                map (tagged filename) (flattenKVPairs kvMap "")) srcs.
Proof.
  induction srcs as [|[kvMap filename] rest IH]; [reflexivity|].
  cbn [map fst snd]. rewrite entries_cons, IH. reflexivity.
Qed.

Lemma entries_In (kvMaps : list yaml_map) (filenames : list string) (i : nat)
    (kvMap : yaml_map) (filename : string) (pair : KVPair.t) :
  kvMaps !! i = Some kvMap -> filenames !! i = Some filename ->
  In pair (flattenKVPairs kvMap "") ->
  In (tagged filename pair) (entries kvMaps filenames).
Proof.
  revert filenames i.
  induction kvMaps as [|kvMap0 kvMaps IH]; intros filenames i Hm Hf Hin;
    [discriminate|].
  destruct filenames as [|filename0 filenames]; [discriminate|].
  rewrite entries_cons, in_app_iff.
  destruct i as [|i]; cbn [lookup list_lookup] in Hm, Hf.
  - injection Hm as ->. injection Hf as ->. left. now apply in_map.
  - right. eapply IH; eassumption.
Qed.

(** In a source whose flattened paths are pairwise distinct a path occurs
    once or not at all. *)
Lemma occurrences_one_source (key filename : string) (pairs : list KVPair.t) :
  List.NoDup (map KVPair.Key pairs) ->
  length (occurrences key (map (tagged filename) pairs))
  = if existsb (fun pair => String.eqb (KVPair.Key pair) key) pairs
    then 1%nat else 0%nat.
Proof.
  induction pairs as [|pair rest IH]; cbn [map existsb]; intros Hnd;
    [reflexivity|].
  inversion Hnd as [|? ? Hfresh Hnd']; subst.
  rewrite occurrences_cons. cbn [tagged fst snd].
  destruct (String.eqb_spec (KVPair.Key pair) key) as [<-|Hne];
    cbn [orb length]; [|now apply IH].
  rewrite (IH Hnd').
  destruct (existsb _ rest) eqn:Hex; [|reflexivity].
  apply existsb_exists in Hex as (pair' & Hin & Heq).
  apply String.eqb_eq in Heq. destruct Hfresh.
  rewrite <- Heq. now apply in_map.
Qed.

Lemma occurrences_sources (kvMaps : list yaml_map) :
  forall (filenames : list string) (key : string),
    length kvMaps = length filenames ->
    Forall (fun kvMap => List.NoDup (map KVPair.Key (flattenKVPairs kvMap "")))
           kvMaps ->
    length (occurrences key (entries kvMaps filenames))
    = length (sources_with key kvMaps).
Proof.
  induction kvMaps as [|kvMap kvMaps IH]; intros [|filename filenames] key Hlen
    Huniq; try discriminate; [reflexivity|].
  inversion Huniq as [|? ? Hhead Htail]; subst.
  rewrite entries_cons, occurrences_app, length_app.
  rewrite occurrences_one_source by assumption.
  rewrite (IH filenames key) by (try assumption; cbn in Hlen; lia).
  unfold sources_with. cbn [List.filter].
  destruct (existsb _ _); reflexivity.
Qed.

(** ** Independence of the order of the entries *)

(** Two runs of [detectDuplicates] whose tagged entries are the same up to
    their order report the same paths, with the same occurrences up to their
    order. *)
Lemma detectDuplicates_same_entries (kvMaps kvMaps' : list yaml_map)
    (filenames filenames' : list string) :
  length kvMaps = length filenames -> length kvMaps' = length filenames' ->
  Permutation (entries kvMaps filenames) (entries kvMaps' filenames') ->
  exists duplicates duplicates' : list DuplicateInfo.t,
    detectDuplicates kvMaps filenames = (duplicates, None) /\
    detectDuplicates kvMaps' filenames' = (duplicates', None) /\
    map DuplicateInfo.Key duplicates = map DuplicateInfo.Key duplicates' /\
    Forall2 (fun d d' =>
               DuplicateInfo.Key d = DuplicateInfo.Key d' /\
               Permutation (DuplicateInfo.Files d) (DuplicateInfo.Files d'))
            duplicates duplicates'.
Proof.
  intros Hlen Hlen' Hes.
  destruct (detectDuplicates_spec kvMaps filenames Hlen)
    as (dups & Hrun & Hin & Hsorted).
  destruct (detectDuplicates_spec kvMaps' filenames' Hlen')
    as (dups' & Hrun' & Hin' & Hsorted').
  exists dups, dups'. split; [exact Hrun|]. split; [exact Hrun'|].
  set (es := entries kvMaps filenames) in *.
  set (es' := entries kvMaps' filenames') in *.
  set (g := fun d => DuplicateInfo.mk (DuplicateInfo.Key d)
                       (occurrences (DuplicateInfo.Key d) es')).
  assert (Hkeys : map DuplicateInfo.Key (map g dups)
                  = map DuplicateInfo.Key dups)
    by (rewrite map_map; reflexivity).
  assert (Hg : dups' = map g dups).
  { apply key_lt_sorted_unique; [exact Hsorted'| |].
    - clear -Hsorted. induction Hsorted as [|d l Hl IH Hd]; cbn [map];
        constructor; [exact IH|].
      apply List.Forall_forall. intros d' Hd'.
      apply in_map_iff in Hd' as (d0 & <- & Hd0).
      rewrite List.Forall_forall in Hd. exact (Hd d0 Hd0).
    - intros d. rewrite Hin', in_map_iff. split.
      + intros [Hfiles Htwo].
        exists (DuplicateInfo.mk (DuplicateInfo.Key d)
                  (occurrences (DuplicateInfo.Key d) es)).
        split; [subst g; cbn; rewrite <- Hfiles; now destruct d|].
        apply Hin. cbn. split; [reflexivity|].
        rewrite (Permutation_length (occurrences_Permutation _ _ _ Hes)).
        now rewrite <- Hfiles.
      + intros (d0 & <- & Hd0). apply Hin in Hd0 as [Hfiles Htwo].
        subst g. cbn. split; [reflexivity|].
        rewrite <- (Permutation_length (occurrences_Permutation _ _ _ Hes)).
        now rewrite <- Hfiles. }
  split; [now rewrite Hg, Hkeys|].
  rewrite Hg.
  assert (Hall : forall d, In d dups ->
                   DuplicateInfo.Files d
                   = occurrences (DuplicateInfo.Key d) es)
    by (intros d Hd; now apply Hin in Hd).
  clear -Hall Hes. induction dups as [|d dups IH]; cbn [map]; constructor.
  - split; [reflexivity|]. subst g. cbn.
    rewrite (Hall d) by now left. now apply occurrences_Permutation.
  - apply IH. intros d' Hd'. apply Hall. now right.
Qed.

(** The order in which the mappings of the sources are ranged over does not
    show in the paths reported: flattenings that agree up to their order give
    the same result up to the order of the occurrences. *)
Lemma detectDuplicates_range_order (kvMaps kvMaps' : list yaml_map)
    (filenames : list string) :
  length kvMaps = length filenames ->
  Forall2 (fun kvMap kvMap' =>
             Permutation (flattenKVPairs kvMap "") (flattenKVPairs kvMap' ""))
          kvMaps kvMaps' ->
  exists duplicates duplicates' : list DuplicateInfo.t,
    detectDuplicates kvMaps filenames = (duplicates, None) /\
    detectDuplicates kvMaps' filenames = (duplicates', None) /\
    map DuplicateInfo.Key duplicates = map DuplicateInfo.Key duplicates' /\
    Forall2 (fun d d' =>
               DuplicateInfo.Key d = DuplicateInfo.Key d' /\
               Permutation (DuplicateInfo.Files d) (DuplicateInfo.Files d'))
            duplicates duplicates'.
Proof.
  intros Hlen Hsame.
  apply detectDuplicates_same_entries; [exact Hlen| |].
  - rewrite <- Hlen. symmetry. eapply Forall2_length. eassumption.
  - clear Hlen. revert filenames.
    induction Hsame as [|kvMap kvMap' rest rest' Hhead _ IH];
      intros [|filename filenames]; try reflexivity.
    rewrite !entries_cons. apply Permutation_app; [|apply IH].
    now apply Permutation_map.
Qed.

(** Entries of two different sources are two entries of the whole. *)
Lemma entries_two_sources (kvMaps : list yaml_map) :
  forall (filenames : list string) (i i' : nat) (kvMap kvMap' : yaml_map)
         (filename filename' : string) (pair pair' : KVPair.t),
    (i < i')%nat ->
    kvMaps !! i = Some kvMap -> filenames !! i = Some filename ->
    kvMaps !! i' = Some kvMap' -> filenames !! i' = Some filename' ->
    In pair (flattenKVPairs kvMap "") -> In pair' (flattenKVPairs kvMap' "") ->
    exists a b c : list (string * FileSource.t),
      entries kvMaps filenames
      = a ++ tagged filename pair :: b ++ tagged filename' pair' :: c.
Proof.
  induction kvMaps as [|kvMap0 kvMaps IH];
    intros filenames i i' kvMap kvMap' filename filename' pair pair'
      Hlt Hm Hf Hm' Hf' Hin Hin'; [discriminate|].
  destruct filenames as [|filename0 filenames]; [discriminate|].
  rewrite entries_cons.
  destruct i' as [|i']; [lia|]. cbn [lookup list_lookup] in Hm', Hf'.
  destruct i as [|i]; cbn [lookup list_lookup] in Hm, Hf.
  - injection Hm as ->. injection Hf as ->.
    apply in_split in Hin as (l1 & l2 & ->).
    pose proof (entries_In _ _ _ _ _ _ Hm' Hf' Hin') as Hrest.
    apply in_split in Hrest as (r1 & r2 & ->).
    exists (map (tagged filename) l1), (map (tagged filename) l2 ++ r1), r2.
    rewrite map_app. cbn [map]. rewrite <- !app_assoc. cbn [app].
    rewrite <- ?app_assoc. reflexivity.
  - destruct (IH filenames i i' kvMap kvMap' filename filename' pair pair')
      as (a & b & c & ->); try assumption; [lia|].
    exists (map (tagged filename0) (flattenKVPairs kvMap0 "") ++ a), b, c.
    now rewrite <- app_assoc.
Qed.

(** A path that two different sources have occurs at least twice. *)
Lemma occurrences_two_sources (kvMaps : list yaml_map) (filenames : list string)
    (i i' : nat) (kvMap kvMap' : yaml_map) (filename filename' : string)
    (pair pair' : KVPair.t) :
  i <> i' ->
  kvMaps !! i = Some kvMap -> filenames !! i = Some filename ->
  kvMaps !! i' = Some kvMap' -> filenames !! i' = Some filename' ->
  In pair (flattenKVPairs kvMap "") -> In pair' (flattenKVPairs kvMap' "") ->
  KVPair.Key pair' = KVPair.Key pair ->
  (2 <= length (occurrences (KVPair.Key pair) (entries kvMaps filenames)))%nat.
Proof.
  intros Hne Hm Hf Hm' Hf' Hin Hin' Hkey.
  assert (Hsplit : exists (a b c : list (string * FileSource.t))
                          (e e' : string * FileSource.t),
             entries kvMaps filenames = a ++ e :: b ++ e' :: c /\
             fst e = KVPair.Key pair /\ fst e' = KVPair.Key pair).
  { destruct (Nat.lt_total i i') as [Hlt|[Heq|Hgt]]; [|contradiction|].
    - destruct (entries_two_sources kvMaps filenames i i' kvMap kvMap'
                  filename filename' pair pair') as (a & b & c & Heq);
        try assumption.
      exists a, b, c, (tagged filename pair), (tagged filename' pair').
      split; [exact Heq|]. split; [reflexivity|exact Hkey].
    - destruct (entries_two_sources kvMaps filenames i' i kvMap' kvMap
                  filename' filename pair' pair) as (a & b & c & Heq);
        try assumption.
      exists a, b, c, (tagged filename' pair'), (tagged filename pair).
      split; [exact Heq|]. split; [exact Hkey|reflexivity]. }
  destruct Hsplit as (a & b & c & e & e' & -> & He & He').
  rewrite occurrences_app, occurrences_cons, He, String.eqb_refl.
  rewrite occurrences_app, occurrences_cons, He', String.eqb_refl.
  rewrite !length_app. cbn [length]. rewrite length_app. cbn [length]. lia.
Qed.

(** ** The claims of the specification *)

Lemma plan_spec_lookup_inv {A : Type} (ops : list A) (c k : nat) (chunk : list A) :
  plan_spec ops c !! k = Some chunk ->
  (k < ceil_div (length ops) c)%nat /\ chunk = batch ops c k.
Proof.
  intros Hk.
  assert (Hlt : (k < ceil_div (length ops) c)%nat).
  { rewrite <- plan_spec_length. eapply lookup_lt_Some. eassumption. }
  split; [assumption|].
  rewrite plan_spec_lookup in Hk by assumption. congruence.
Qed.

Lemma when_print_remote (b : bool) (o : output) (m : machine) :
  exists m', when b (print o) m = (Returned tt, m') /\ remote m' = remote m.
Proof. destruct b; eexists; split; reflexivity. Qed.

Lemma checkDuplicates_spec (kvMaps : list yaml_map) (filenames : list string)
    (verbose : bool) (m : machine) :
  exists m',
    checkDuplicates kvMaps filenames verbose m
    = (Returned
         (match detectDuplicates kvMaps filenames with
          | (_, Some e) => Some (ErrDetectDuplicates e)
          | (duplicates, None) =>
              if len duplicates >? 0 then Some ErrDuplicateKeys else None
          end), m') /\
    remote m' = remote m.
Proof.
  unfold checkDuplicates.
  destruct (when_print_remote verbose OutCheckingDuplicates m)
    as (m1 & Hwhen & Hremote).
  unfold bind at 1. rewrite Hwhen.
  destruct (detectDuplicates kvMaps filenames) as [duplicates [e|]].
  - exists m1. now split.
  - destruct (len duplicates >? 0).
    + eexists. split; [reflexivity|]. exact Hremote.
    + exists m1. now split.
Qed.

(** With the files loaded and no duplicate found, a [run] that neither
    exports nor is a dry run is the call of [syncToConsul] on the collected
    pairs, the endpoint being as it was. *)
Lemma run_sync_spec (environment configFile consulAddr datacenter : string)
    (verbose : bool) (m : machine) (kvMaps : list yaml_map)
    (filenames : list string) :
  loadConfigurationAndFiles environment configFile verbose
  = (kvMaps, filenames, None) ->
  detectDuplicates kvMaps filenames = ([], None) ->
  exists m0 : machine,
    remote m0 = remote m /\
    run environment configFile false false consulAddr datacenter verbose m
    = syncToConsul (collectAllKVPairs kvMaps) consulAddr datacenter verbose m0.
Proof.
  intros Hload Hdetect. unfold run. rewrite Hload.
  destruct (checkDuplicates_spec kvMaps filenames verbose m)
    as (m1 & Hcheck & Hremote1).
  rewrite Hdetect in Hcheck.
  change (if len [] >? 0 then Some ErrDuplicateKeys else None)
    with (@None error) in Hcheck.
  unfold bind at 1. rewrite Hcheck. cbv beta iota.
  destruct (when_print_remote verbose
              (OutCollected (len (collectAllKVPairs kvMaps))) m1)
    as (m2 & Hwhen & Hremote2).
  unfold bind at 1. rewrite Hwhen. cbv beta iota.
  exists m2. split; [congruence|reflexivity].
Qed.

(** C2. With the capacity 64 of the call site, [chunkOps] returns
    [ceil(N/64)] batches; every batch but the last holds exactly 64
    operations and the last holds [N mod 64] when that is not zero (and 64
    otherwise); the batches concatenated in order are the input; no batch
    holds more than 64 operations; and no operation gives no batch. *)
Theorem chunkOps_batches (ops : list TxnOp.t) (fuel : nat) :
  in_memory ops -> (length ops < fuel)%nat ->
  exists chunks : list (list TxnOp.t),
    chunkOps fuel ops MaxOpsPerTransaction = Returned chunks /\
    length chunks = ceil_div (length ops) 64 /\
    (forall (k : nat) (chunk : list TxnOp.t),
        chunks !! k = Some chunk -> (S k < length chunks)%nat ->
        len chunk = MaxOpsPerTransaction) /\
    (forall chunk : list TxnOp.t,
        last chunks = Some chunk ->
        len chunk = if len ops mod 64 =? 0 then 64 else len ops mod 64) /\
    concat chunks = ops /\
    Forall (fun chunk => len chunk <= MaxOpsPerTransaction) chunks /\
    (ops = [] -> chunks = []).
Proof.
  intros Hmem Hfuel. exists (plan_spec ops 64).
  split.
  { rewrite chunkOps_refines_plan; try assumption; [reflexivity|].
    unfold MaxOpsPerTransaction, int_max. lia. }
  split; [apply plan_spec_length|].
  split.
  { intros k chunk Hk Hnext. rewrite plan_spec_length in Hnext.
    apply plan_spec_lookup_inv in Hk as [_ ->].
    apply ceil_div_gt in Hnext; [|lia].
    unfold len, MaxOpsPerTransaction. rewrite batch_length. lia. }
  split.
  { intros chunk Hlast. rewrite last_lookup, plan_spec_length in Hlast.
    apply plan_spec_lookup_inv in Hlast as [Hlt ->].
    assert (Hlow : (pred (ceil_div (length ops) 64) * 64 < length ops)%nat)
      by (apply ceil_div_gt; lia).
    assert (Hhigh : ~ (ceil_div (length ops) 64 * 64 < length ops)%nat)
      by (rewrite ceil_div_gt by lia; lia).
    unfold len. rewrite batch_length.
    destruct (ceil_div (length ops) 64) as [|t]; [lia|]. cbn [pred] in *.
    assert (Hmod : Z.of_nat (length ops) mod 64
                   = (Z.of_nat (length ops) - 64 * Z.of_nat t) mod 64).
    { replace (Z.of_nat (length ops))
        with (Z.of_nat (length ops) - 64 * Z.of_nat t + Z.of_nat t * 64) at 1
        by lia.
      apply Z.mod_add. lia. }
    rewrite Hmod.
    destruct (Nat.eq_dec (length ops - t * 64)%nat 64%nat) as [Heq|Hne].
    - replace (Z.of_nat (length ops) - 64 * Z.of_nat t) with 64 by lia.
      rewrite Z.mod_same by lia. cbn [Z.eqb]. lia.
    - rewrite Z.mod_small by lia.
      destruct (Z.eqb_spec (Z.of_nat (length ops) - 64 * Z.of_nat t) 0); lia. }
  split; [apply plan_spec_concat; lia|].
  split.
  { apply list.Forall_forall. intros chunk Hin.
    apply list_elem_of_lookup in Hin as [k Hk].
    apply plan_spec_lookup_inv in Hk as [_ ->].
    unfold len, MaxOpsPerTransaction. rewrite batch_length. lia. }
  intros ->. unfold plan_spec. cbn [length]. now rewrite ceil_div_0.
Qed.

(** C10. [chunkOps] returns for every slice when the chunk size is positive:
    some number of steps is enough, and then every larger number gives the
    same chunks.  Positivity is needed: on a non-empty slice the loop never
    ends with chunk size 0 and panics on its first slice expression with a
    negative one.  The one call in the program, in [syncKVPairs], passes
    [MaxOpsPerTransaction] = 64, so it returns and so does [syncKVPairs]. *)
Theorem chunkOps_termination :
  (forall (ops : list TxnOp.t) (chunkSize : Z),
      in_memory ops -> 0 < chunkSize <= int_max ->
      exists chunks : list (list TxnOp.t),
        forall fuel : nat,
          (length ops < fuel)%nat ->
          chunkOps fuel ops chunkSize = Returned chunks) /\
  (forall (ops : list TxnOp.t) (fuel : nat),
      ops <> [] -> chunkOps fuel ops 0 = Running) /\
  (forall (ops : list TxnOp.t) (chunkSize : Z) (fuel : nat),
      ops <> [] -> int_min <= chunkSize < 0 ->
      chunkOps (S fuel) ops chunkSize = Panicked) /\
  MaxOpsPerTransaction = 64 /\
  (forall (c : ConsulClient) (pairs : list KVPair.t) (verbose : bool)
          (m : machine),
      in_memory pairs ->
      (exists chunks : list (list TxnOp.t),
          chunkOps (S (length (createTransactionOps pairs)))
                   (createTransactionOps pairs) MaxOpsPerTransaction
          = Returned chunks) /\
      (exists (s : ExecutionSummary.t) (m' : machine),
          syncKVPairs c pairs verbose m = (Returned (Some s, None), m'))).
Proof.
  split.
  { intros ops chunkSize Hmem Hc.
    exists (plan_spec ops (Z.to_nat chunkSize)). intros fuel Hfuel.
    now apply chunkOps_refines_plan. }
  split.
  { intros ops fuel Hne. now apply chunkOps_loop_zero. }
  split.
  { intros ops chunkSize fuel Hne Hc. now apply chunkOps_negative. }
  split; [reflexivity|].
  intros c pairs verbose m Hmem. split.
  - exists (planned pairs). apply chunkOps_planned; [assumption|].
    unfold createTransactionOps. rewrite length_map. lia.
  - destruct (syncKVPairs_spec c pairs verbose m Hmem) as (s & m' & Hrun & _).
    eauto.
Qed.

(** C3. When [syncKVPairs] has returned, [SuccessBatches + FailedBatches =
    TotalBatches], each being the number of results with that verdict;
    [TotalBatches] is the number of chunks [chunkOps] returned; and [Results]
    has one entry for each chunk, in the order of submission: entry [j] has
    [BatchIndex] [j], counts the operations of chunk [j], and records the
    answer the endpoint gave after the [j] chunks before it. *)
Theorem syncKVPairs_accounting (c : ConsulClient) (pairs : list KVPair.t)
    (verbose : bool) (m : machine) :
  in_memory pairs ->
  exists (chunks : list (list TxnOp.t)) (s : ExecutionSummary.t) (m' : machine),
    chunkOps (S (length (createTransactionOps pairs)))
             (createTransactionOps pairs) MaxOpsPerTransaction
    = Returned chunks /\
    syncKVPairs c pairs verbose m = (Returned (Some s, None), m') /\
    ExecutionSummary.SuccessBatches s + ExecutionSummary.FailedBatches s
    = ExecutionSummary.TotalBatches s /\
    ExecutionSummary.SuccessBatches s
    = len (List.filter succeeded (ExecutionSummary.Results s)) /\
    ExecutionSummary.FailedBatches s
    = len (List.filter failed (ExecutionSummary.Results s)) /\
    ExecutionSummary.TotalBatches s = len chunks /\
    length (ExecutionSummary.Results s) = length chunks /\
    map BatchResult.BatchIndex (ExecutionSummary.Results s)
    = map Z.of_nat (seq 0 (length chunks)) /\
    map BatchResult.ProcessedOps (ExecutionSummary.Results s)
    = map len chunks /\
    (forall (j : nat) (chunk : list TxnOp.t),
        chunks !! j = Some chunk ->
        ExecutionSummary.Results s !! j
        = Some (batchResult c (submitted c (remote m) (take j chunks))
                            (Z.of_nat j) chunk)).
Proof.
  intros Hmem.
  destruct (syncKVPairs_spec c pairs verbose m Hmem)
    as (s & m' & Hrun & Hkeys & Htotal & Hres & Hsucc & Hfail & Hworld).
  exists (planned pairs), s, m'.
  split.
  { apply chunkOps_planned; [assumption|].
    unfold createTransactionOps. rewrite length_map. lia. }
  split; [exact Hrun|].
  assert (Hlen : length (ExecutionSummary.Results s) = length (planned pairs))
    by (rewrite Hres; apply batchResults_length).
  split.
  { rewrite Hsucc, Hfail, Htotal.
    pose proof (filter_partition_length succeeded (ExecutionSummary.Results s))
      as Hpart.
    unfold failed. unfold succeeded in *. unfold len in *. lia. }
  split; [exact Hsucc|]. split; [exact Hfail|]. split; [exact Htotal|].
  split; [exact Hlen|].
  destruct (batchResults_indices c (planned pairs) (remote m) 0) as [Hi Hp].
  rewrite Hres. split; [exact Hi|]. split; [exact Hp|].
  intros j chunk Hj. rewrite (batchResults_lookup _ _ _ _ _ _ Hj).
  do 2 f_equal.
Qed.

(** C5. [syncToConsul] returns an error exactly when the summary that
    [syncKVPairs] returned has [FailedBatches > 0]; the summary is returned
    by [syncKVPairs] and printed by [syncToConsul] in either case, so also
    when the run is reported as failed. *)
Theorem syncToConsul_reports_failure (allPairs : list KVPair.t)
    (consulAddr datacenter : string) (verbose : bool) (m : machine) :
  in_memory allPairs ->
  exists (s : ExecutionSummary.t) (m1 m' : machine) (err : option error),
    syncKVPairs (NewConsulClient consulAddr datacenter) allPairs verbose
                (mkMachine (remote m) (printed m ++ [OutSyncingTo (len allPairs)]))
    = (Returned (Some s, None), m1) /\
    syncToConsul allPairs consulAddr datacenter verbose m = (Returned err, m') /\
    (err <> None <-> ExecutionSummary.FailedBatches s > 0) /\
    (ExecutionSummary.FailedBatches s > 0 ->
     err = Some (ErrBatchesFailed (ExecutionSummary.FailedBatches s)
                                  (ExecutionSummary.TotalBatches s))) /\
    printed m' = printed m1 ++ [OutSummary s] /\
    remote m' = remote m1.
Proof.
  intros Hmem. unfold syncToConsul.
  set (m0 := mkMachine (remote m) (printed m ++ [OutSyncingTo (len allPairs)])).
  destruct (syncKVPairs_spec (NewConsulClient consulAddr datacenter)
              allPairs verbose m0 Hmem) as (s & m1 & Hrun & _).
  exists s, m1.
  unfold bind at 1. unfold print at 1. fold m0.
  unfold bind at 1. rewrite Hrun.
  unfold bind, print, ret.
  destruct (Z.gtb_spec (ExecutionSummary.FailedBatches s) 0) as [Hgt|Hle].
  - eexists _, _. split; [reflexivity|]. split; [reflexivity|].
    cbn [remote printed]. repeat split; intros; (congruence || lia).
  - eexists _, _. split; [reflexivity|]. split; [reflexivity|].
    cbn [remote printed]. repeat split; intros; (congruence || lia).
Qed.

(** A transport failure of one batch, as [syncToConsul] reports it. *)
Lemma syncToConsul_transport_failure (allPairs : list KVPair.t)
    (consulAddr datacenter : string) (verbose : bool) (m : machine)
    (j : nat) (chunk : list TxnOp.t) (txnResp : option TxnResponse.t)
    (e : error) :
  in_memory allPairs ->
  planned allPairs !! j = Some chunk ->
  transaction_result (NewConsulClient consulAddr datacenter)
    (submitted (NewConsulClient consulAddr datacenter) (remote m)
               (take j (planned allPairs)))
    chunk
  = Returned (txnResp, Some e) ->
  transport_level e = true ->
  exists (s : ExecutionSummary.t) (m' : machine),
    syncToConsul allPairs consulAddr datacenter verbose m
    = (Returned (Some (ErrBatchesFailed (ExecutionSummary.FailedBatches s)
                                        (ExecutionSummary.TotalBatches s))),
       m') /\
    ExecutionSummary.FailedBatches s > 0 /\
    ExecutionSummary.Results s !! j
    = Some (BatchResult.mk (Z.of_nat j) false (Some e) [] (len chunk)) /\
    length (ExecutionSummary.Results s) = length (planned allPairs) /\
    last (printed m') = Some (OutSummary s) /\
    remote m'
    = submitted (NewConsulClient consulAddr datacenter) (remote m)
                (planned allPairs).
Proof.
  intros Hmem Hj Hanswer Htransport.
  destruct (syncToConsul_spec allPairs consulAddr datacenter verbose m Hmem)
    as (s & m' & Hrun & Hres & Hfail & _ & Hout & Hworld).
  assert (Hentry : ExecutionSummary.Results s !! j
                   = Some (BatchResult.mk (Z.of_nat j) false (Some e) []
                                          (len chunk))).
  { rewrite Hres. eapply batchResults_transport; eassumption. }
  assert (Hgt : ExecutionSummary.FailedBatches s > 0).
  { rewrite Hfail.
    pose proof (filter_nonempty failed _ _ _ Hentry eq_refl). lia. }
  exists s, m'.
  replace (ExecutionSummary.FailedBatches s >? 0) with true in Hrun
    by (symmetry; apply Z.gtb_gt; lia).
  split; [exact Hrun|]. split; [exact Hgt|]. split; [exact Hentry|].
  split; [rewrite Hres; apply batchResults_length|].
  split; [exact Hout|exact Hworld].
Qed.

(** C1 (as the code has it). A batch whose submission fails at the transport
    level does not end the run: [syncKVPairs] records it as a failed batch
    with the error and no per-operation errors, counts it in [FailedBatches]
    (the number of the failed records, of which it is one), submits every
    planned batch whatever the earlier answers were, and returns the summary
    with a nil error.  [syncToConsul], and [run] when it reaches the sync,
    then print the summary and return the error that reports the run as
    failed, [FailedBatches] being positive. *)
Theorem syncKVPairs_absorbs_transport_failure :
  (forall (c : ConsulClient) (pairs : list KVPair.t) (verbose : bool)
          (m : machine),
      in_memory pairs ->
      exists (s : ExecutionSummary.t) (m' : machine),
        chunkOps (S (length (createTransactionOps pairs)))
                 (createTransactionOps pairs) MaxOpsPerTransaction
        = Returned (planned pairs) /\
        syncKVPairs c pairs verbose m = (Returned (Some s, None), m') /\
        remote m' = submitted c (remote m) (planned pairs) /\
        length (ExecutionSummary.Results s) = length (planned pairs) /\
        ExecutionSummary.FailedBatches s
        = len (List.filter failed (ExecutionSummary.Results s)) /\
        (forall (j : nat) (chunk : list TxnOp.t)
                (txnResp : option TxnResponse.t) (e : error),
            planned pairs !! j = Some chunk ->
            transaction_result c
              (submitted c (remote m) (take j (planned pairs))) chunk
            = Returned (txnResp, Some e) ->
            transport_level e = true ->
            ExecutionSummary.Results s !! j
            = Some (BatchResult.mk (Z.of_nat j) false (Some e) [] (len chunk)) /\
            In (BatchResult.mk (Z.of_nat j) false (Some e) [] (len chunk))
               (List.filter failed (ExecutionSummary.Results s)) /\
            ExecutionSummary.FailedBatches s > 0)) /\
  (forall (allPairs : list KVPair.t) (consulAddr datacenter : string)
          (verbose : bool) (m : machine) (j : nat) (chunk : list TxnOp.t)
          (txnResp : option TxnResponse.t) (e : error),
      in_memory allPairs ->
      planned allPairs !! j = Some chunk ->
      transaction_result (NewConsulClient consulAddr datacenter)
        (submitted (NewConsulClient consulAddr datacenter) (remote m)
                   (take j (planned allPairs)))
        chunk
      = Returned (txnResp, Some e) ->
      transport_level e = true ->
      exists (s : ExecutionSummary.t) (m' : machine),
        syncToConsul allPairs consulAddr datacenter verbose m
        = (Returned (Some (ErrBatchesFailed (ExecutionSummary.FailedBatches s)
                                            (ExecutionSummary.TotalBatches s))),
           m') /\
        ExecutionSummary.FailedBatches s > 0 /\
        ExecutionSummary.Results s !! j
        = Some (BatchResult.mk (Z.of_nat j) false (Some e) [] (len chunk)) /\
        length (ExecutionSummary.Results s) = length (planned allPairs) /\
        last (printed m') = Some (OutSummary s) /\
        remote m'
        = submitted (NewConsulClient consulAddr datacenter) (remote m)
                    (planned allPairs)) /\
  (forall (environment configFile consulAddr datacenter : string)
          (verbose : bool) (m : machine) (kvMaps : list yaml_map)
          (filenames : list string) (j : nat) (chunk : list TxnOp.t)
          (txnResp : option TxnResponse.t) (e : error),
      loadConfigurationAndFiles environment configFile verbose
      = (kvMaps, filenames, None) ->
      detectDuplicates kvMaps filenames = ([], None) ->
      in_memory (collectAllKVPairs kvMaps) ->
      planned (collectAllKVPairs kvMaps) !! j = Some chunk ->
      transaction_result (NewConsulClient consulAddr datacenter)
        (submitted (NewConsulClient consulAddr datacenter) (remote m)
                   (take j (planned (collectAllKVPairs kvMaps))))
        chunk
      = Returned (txnResp, Some e) ->
      transport_level e = true ->
      exists (s : ExecutionSummary.t) (m' : machine),
        run environment configFile false false consulAddr datacenter verbose m
        = (Returned (Some (ErrBatchesFailed (ExecutionSummary.FailedBatches s)
                                            (ExecutionSummary.TotalBatches s))),
           m') /\
        ExecutionSummary.FailedBatches s > 0 /\
        ExecutionSummary.Results s !! j
        = Some (BatchResult.mk (Z.of_nat j) false (Some e) [] (len chunk)) /\
        length (ExecutionSummary.Results s)
        = length (planned (collectAllKVPairs kvMaps)) /\
        last (printed m') = Some (OutSummary s) /\
        remote m'
        = submitted (NewConsulClient consulAddr datacenter) (remote m)
                    (planned (collectAllKVPairs kvMaps))).
Proof.
  split; [|split].
  - intros c pairs verbose m Hmem.
    destruct (syncKVPairs_spec c pairs verbose m Hmem)
      as (s & m' & Hrun & Hkeys & Htotal & Hres & Hsucc & Hfail & Hworld).
    exists s, m'.
    split.
    { apply chunkOps_planned; [assumption|].
      unfold createTransactionOps. rewrite length_map. lia. }
    split; [exact Hrun|]. split; [exact Hworld|].
    split; [rewrite Hres; apply batchResults_length|].
    split; [exact Hfail|].
    intros j chunk txnResp e Hj Hanswer Htransport.
    assert (Hentry : ExecutionSummary.Results s !! j
                     = Some (BatchResult.mk (Z.of_nat j) false (Some e) []
                                            (len chunk))).
    { rewrite Hres. eapply batchResults_transport; eassumption. }
    split; [exact Hentry|].
    split; [eapply filter_lookup_In; [exact Hentry|reflexivity]|].
    rewrite Hfail.
    pose proof (filter_nonempty failed _ _ _ Hentry eq_refl). lia.
  - intros allPairs consulAddr datacenter verbose m j chunk txnResp e.
    apply syncToConsul_transport_failure.
  - intros environment configFile consulAddr datacenter verbose m kvMaps
      filenames j chunk txnResp e Hload Hdetect Hmem Hj Hanswer Htransport.
    destruct (run_sync_spec environment configFile consulAddr datacenter
                verbose m kvMaps filenames Hload Hdetect)
      as (m0 & Hremote & ->).
    rewrite <- Hremote in Hanswer |- *.
    eapply syncToConsul_transport_failure; eassumption.
Qed.

(** C4 (as the code has it). When the lengths agree, [detectDuplicates]
    returns exactly the records of the paths that have two or more
    occurrences among the flattened entries of all sources taken together;
    each record carries every contributing file name and value in the order
    the sources are processed; the records are sorted by path.  Two entries of
    one source with the same flattened path count as two occurrences; when
    the flattened paths of every source are pairwise distinct, the number of
    occurrences of a path is the number of sources it occurs in. *)
Theorem detectDuplicates_occurrences (kvMaps : list yaml_map)
    (filenames : list string) :
  length kvMaps = length filenames ->
  exists duplicates : list DuplicateInfo.t,
    detectDuplicates kvMaps filenames = (duplicates, None) /\
    (forall d : DuplicateInfo.t,
        In d duplicates <->
        DuplicateInfo.Files d
        = occurrences (DuplicateInfo.Key d) (entries kvMaps filenames) /\
        (2 <= length (DuplicateInfo.Files d))%nat) /\
    StronglySorted key_lt duplicates /\
    (Forall (fun kvMap => List.NoDup (map KVPair.Key (flattenKVPairs kvMap "")))
            kvMaps ->
     forall key : string,
       length (occurrences key (entries kvMaps filenames))
       = length (sources_with key kvMaps)).
Proof.
  intros Hlen.
  destruct (detectDuplicates_spec kvMaps filenames Hlen)
    as (duplicates & Hrun & Hin & Hsorted).
  exists duplicates.
  split; [exact Hrun|]. split; [exact Hin|]. split; [exact Hsorted|].
  intros Huniq key. now apply occurrences_sources.
Qed.

(** C9. Permuting the list of sources does not change the paths
    [detectDuplicates] reports: the two results list the same paths in the
    same order, and the occurrences of each path are the same up to their
    order. *)
Theorem detectDuplicates_source_order (srcs srcs' : list (yaml_map * string)) :
  Permutation srcs srcs' ->
  exists duplicates duplicates' : list DuplicateInfo.t,
    detectDuplicates (map fst srcs) (map snd srcs) = (duplicates, None) /\
    detectDuplicates (map fst srcs') (map snd srcs') = (duplicates', None) /\
    map DuplicateInfo.Key duplicates = map DuplicateInfo.Key duplicates' /\
    Forall2 (fun d d' =>
               DuplicateInfo.Key d = DuplicateInfo.Key d' /\
               Permutation (DuplicateInfo.Files d) (DuplicateInfo.Files d'))
            duplicates duplicates'.
Proof.
  intros Hperm. apply detectDuplicates_same_entries.
  - now rewrite !length_map.
  - now rewrite !length_map.
  - rewrite !entries_of_sources. now apply Permutation_flat_map.
Qed.

(** C6 (as the code has it). The flattener emits entries exactly for the
    values that are not mappings and are reached from the input through
    mappings along keys that are strings; each of them, a scalar, nil and
    also a sequence, is rendered with [%v] and emitted as one entry.  A
    mapping reached this way, with string keys or with keys of any kind, is
    never emitted but recursed into; of a mapping with keys of any kind only
    the entries under a string key are recursed into, an entry under another
    key is dropped with everything below it.  A sequence is not recursed
    into: it is one leaf, and a mapping inside it appears only in the text
    of the sequence. *)
Theorem flattenKVPairs_leaves :
  (forall (data : yaml_map) (prefix : string) (pair : KVPair.t),
      In pair (flattenKVPairs data prefix) <->
      exists (key : string) (v : value),
        reaches prefix (VMapS data) key v /\ is_mapping v = false /\
        pair = KVPair.mk key (Sprintf_v v)) /\
  (forall (key : string) (entries : list (string * value)),
      processValue key (VMapS entries) = flattenKVPairs entries key) /\
  (forall (key : string) (entries : list (value * value)),
      processValue key (VMapI entries) = processInterfaceMap key entries /\
      processValue key (VMapI entries)
      = flat_map (fun '(k, x) =>
                    match k with
                    | VString strKey => processValue (buildKey key strKey) x
                    | _ => []
                    end) entries) /\
  (forall (key : string) (entries1 entries2 : list (value * value))
          (k x : value),
      (forall strKey : string, k <> VString strKey) ->
      processValue key (VMapI (entries1 ++ (k, x) :: entries2))
      = processValue key (VMapI (entries1 ++ entries2))) /\
  (forall (key : string) (v : value),
      is_mapping v = false ->
      processValue key v = [KVPair.mk key (Sprintf_v v)]) /\
  (forall (key : string) (elems : list value),
      processValue key (VSeq elems) = [KVPair.mk key (Sprintf_v (VSeq elems))] /\
      Sprintf_v (VSeq elems)
      = ("[" ++ String.concat " " (map Sprintf_v elems) ++ "]")%string) /\
  (forall v : value, is_mapping v = true -> Sprintf_v v = fmt_map v).
Proof.
  split; [exact flattenKVPairs_spec|].
  split; [exact processValue_VMapS|].
  split.
  { intros key entries. split;
      [apply processValue_VMapI|apply processValue_VMapI_entries]. }
  split; [exact processValue_VMapI_drop|].
  split; [exact processValue_leaf|].
  split.
  { intros key elems. split; [reflexivity|apply Sprintf_v_VSeq]. }
  intros v Hv. destruct v; (discriminate || reflexivity).
Qed.

Lemma collectAllKVPairs_In (kvMaps : list yaml_map) (i : nat) (kvMap : yaml_map)
    (pair : KVPair.t) :
  kvMaps !! i = Some kvMap -> In pair (flattenKVPairs kvMap "") ->
  In pair (collectAllKVPairs kvMaps).
Proof.
  intros Hi Hin. unfold collectAllKVPairs. apply in_flat_map.
  exists kvMap. split; [|exact Hin].
  apply list_elem_of_In. eapply list_elem_of_lookup_2. eassumption.
Qed.

(** C7 (as the code has it). A key whose value is nil and which is reached
    through mappings along string keys is not left out: the flattener emits
    an entry for its path with the text ["<nil>"].  The entry is among the
    pairs [collectAllKVPairs] hands to the sync, where it becomes a [set]
    operation of a planned batch, which [syncKVPairs] submits.  It is
    recorded by the key tracker of [detectDuplicates], and when another
    source has the same path [detectDuplicates] reports the path with both
    occurrences.  A nil under a key that is not a string is dropped as every
    entry under such a key, and a sequence is one entry whatever it holds. *)
Theorem flattenKVPairs_nil :
  (forall (data : yaml_map) (prefix key : string),
      reaches prefix (VMapS data) key VNil ->
      In (KVPair.mk key "<nil>") (flattenKVPairs data prefix)) /\
  (forall (kvMaps : list yaml_map) (i : nat) (kvMap : yaml_map) (key : string),
      kvMaps !! i = Some kvMap ->
      reaches "" (VMapS kvMap) key VNil ->
      In (KVPair.mk key "<nil>") (collectAllKVPairs kvMaps) /\
      In (TxnOp.mk (Some (TxnKVOp.mk "set" key (encodeValue "<nil>") 0)))
         (createTransactionOps (collectAllKVPairs kvMaps)) /\
      exists (j : nat) (chunk : list TxnOp.t),
        planned (collectAllKVPairs kvMaps) !! j = Some chunk /\
        In (TxnOp.mk (Some (TxnKVOp.mk "set" key (encodeValue "<nil>") 0)))
           chunk /\
        forall (c : ConsulClient) (verbose : bool) (m : machine),
          in_memory (collectAllKVPairs kvMaps) ->
          exists (s : ExecutionSummary.t) (m' : machine),
            chunkOps
              (S (length (createTransactionOps (collectAllKVPairs kvMaps))))
              (createTransactionOps (collectAllKVPairs kvMaps))
              MaxOpsPerTransaction
            = Returned (planned (collectAllKVPairs kvMaps)) /\
            syncKVPairs c (collectAllKVPairs kvMaps) verbose m
            = (Returned (Some s, None), m') /\
            ExecutionSummary.Results s !! j
            = Some (batchResult c
                      (submitted c (remote m)
                         (take j (planned (collectAllKVPairs kvMaps))))
                      (Z.of_nat j) chunk) /\
            remote m'
            = submitted c (remote m) (planned (collectAllKVPairs kvMaps))) /\
  (forall (kvMaps : list yaml_map) (filenames : list string) (i : nat)
          (kvMap : yaml_map) (filename key : string),
      length kvMaps = length filenames ->
      kvMaps !! i = Some kvMap -> filenames !! i = Some filename ->
      reaches "" (VMapS kvMap) key VNil ->
      (exists sources : list FileSource.t,
          trackAll kvMaps filenames !! key = Some sources /\
          In (FileSource.mk filename "<nil>") sources) /\
      exists duplicates : list DuplicateInfo.t,
        detectDuplicates kvMaps filenames = (duplicates, None) /\
        (forall (i' : nat) (kvMap' : yaml_map) (filename' : string)
                (pair' : KVPair.t),
            i' <> i ->
            kvMaps !! i' = Some kvMap' -> filenames !! i' = Some filename' ->
            In pair' (flattenKVPairs kvMap' "") -> KVPair.Key pair' = key ->
            exists d : DuplicateInfo.t,
              In d duplicates /\ DuplicateInfo.Key d = key /\
              In (FileSource.mk filename "<nil>") (DuplicateInfo.Files d) /\
              In (FileSource.mk filename' (KVPair.Value pair'))
                 (DuplicateInfo.Files d)) /\
        (forall d : DuplicateInfo.t,
            In d duplicates -> DuplicateInfo.Key d = key ->
            In (FileSource.mk filename "<nil>") (DuplicateInfo.Files d))) /\
  (forall (key : string) (entries1 entries2 : list (value * value))
          (k x : value),
      (forall strKey : string, k <> VString strKey) ->
      processValue key (VMapI (entries1 ++ (k, x) :: entries2))
      = processValue key (VMapI (entries1 ++ entries2))) /\
  (forall (key : string) (elems : list value),
      processValue key (VSeq elems) = [KVPair.mk key (Sprintf_v (VSeq elems))]).
Proof.
  assert (Hemit : forall (data : yaml_map) (prefix key : string),
             reaches prefix (VMapS data) key VNil ->
             In (KVPair.mk key "<nil>") (flattenKVPairs data prefix)).
  { intros data prefix key Hr. apply flattenKVPairs_spec.
    exists key, VNil. now repeat split. }
  split; [exact Hemit|].
  split; [|split; [|split; [exact processValue_VMapI_drop|reflexivity]]].
  - intros kvMaps i kvMap key Hm Hr.
    pose proof (Hemit _ _ _ Hr) as Hpair.
    pose proof (collectAllKVPairs_In _ _ _ _ Hm Hpair) as Hall.
    assert (Hop : In (TxnOp.mk (Some (TxnKVOp.mk "set" key
                                        (encodeValue "<nil>") 0)))
                     (createTransactionOps (collectAllKVPairs kvMaps))).
    { unfold createTransactionOps. apply in_map_iff.
      exists (KVPair.mk key "<nil>"). now split. }
    split; [exact Hall|]. split; [exact Hop|].
    destruct (planned_In _ _ Hop) as (j & chunk & Hj & Hin).
    exists j, chunk. split; [exact Hj|]. split; [exact Hin|].
    intros c verbose m Hmem.
    destruct (syncKVPairs_spec c (collectAllKVPairs kvMaps) verbose m Hmem)
      as (s & m' & Hrun & _ & _ & Hres & _ & _ & Hworld).
    exists s, m'.
    split.
    { apply chunkOps_planned; [assumption|].
      unfold createTransactionOps. rewrite length_map. lia. }
    split; [exact Hrun|]. split; [|exact Hworld].
    rewrite Hres, (batchResults_lookup _ _ _ _ _ _ Hj). do 2 f_equal.
  - intros kvMaps filenames i kvMap filename key Hlen Hm Hf Hr.
    pose proof (Hemit _ _ _ Hr) as Hpair.
    pose proof (entries_In _ _ _ _ _ _ Hm Hf Hpair) as Hentry.
    change (tagged filename (KVPair.mk key "<nil>"))
      with (key, FileSource.mk filename "<nil>") in Hentry.
    apply occurrences_In in Hentry.
    split.
    { rewrite trackAll_lookup. revert Hentry.
      destruct (occurrences key (entries kvMaps filenames)) as [|src occ];
        intros Hentry; [destruct Hentry|].
      eexists. split; [reflexivity|exact Hentry]. }
    destruct (detectDuplicates_spec kvMaps filenames Hlen)
      as (duplicates & Hrun & Hin & _).
    exists duplicates. split; [exact Hrun|]. split.
    + intros i' kvMap' filename' pair' Hne Hm' Hf' Hpair' Hkey.
      exists (DuplicateInfo.mk key (occurrences key (entries kvMaps filenames))).
      split; [|split; [reflexivity|split]].
      * apply Hin. cbn [DuplicateInfo.Key DuplicateInfo.Files].
        split; [reflexivity|].
        apply (occurrences_two_sources kvMaps filenames i i' kvMap kvMap'
                 filename filename' (KVPair.mk key "<nil>") pair');
          try assumption. congruence.
      * exact Hentry.
      * cbn [DuplicateInfo.Files]. apply occurrences_In.
        pose proof (entries_In _ _ _ _ _ _ Hm' Hf' Hpair') as Hentry'.
        unfold tagged in Hentry'. now rewrite Hkey in Hentry'.
    + intros d Hd Hkey. apply Hin in Hd as [-> _]. now rewrite Hkey.
Qed.

(** C8. When the number of mappings differs from the number of file names,
    [detectDuplicates] fails with the mismatch error, and [checkDuplicates]
    and [run] return it without a request to the endpoint: the state of the
    endpoint is the one before the call.  The same holds when duplicates are
    found. *)
Theorem arity_mismatch_before_store :
  (forall (kvMaps : list yaml_map) (filenames : list string),
      length kvMaps <> length filenames ->
      detectDuplicates kvMaps filenames
      = ([], Some (ErrArityMismatch (len kvMaps) (len filenames))) /\
      forall (environment configFile : string) (dryRun export : bool)
             (consulAddr datacenter : string) (verbose : bool) (m : machine),
        (exists m',
            checkDuplicates kvMaps filenames verbose m
            = (Returned (Some (ErrDetectDuplicates
                                 (ErrArityMismatch (len kvMaps) (len filenames)))),
               m') /\
            remote m' = remote m) /\
        (loadConfigurationAndFiles environment configFile verbose
         = (kvMaps, filenames, None) ->
         exists m',
           run environment configFile dryRun export consulAddr datacenter
               verbose m
           = (Returned (Some (ErrDetectDuplicates
                                (ErrArityMismatch (len kvMaps) (len filenames)))),
              m') /\
           remote m' = remote m)) /\
  (forall (kvMaps : list yaml_map) (filenames : list string)
          (duplicates : list DuplicateInfo.t)
          (environment configFile : string) (dryRun export : bool)
          (consulAddr datacenter : string) (verbose : bool) (m : machine),
      detectDuplicates kvMaps filenames = (duplicates, None) ->
      duplicates <> [] ->
      loadConfigurationAndFiles environment configFile verbose
      = (kvMaps, filenames, None) ->
      exists m',
        run environment configFile dryRun export consulAddr datacenter
            verbose m
        = (Returned (Some ErrDuplicateKeys), m') /\
        remote m' = remote m).
Proof.
  split.
  - intros kvMaps filenames Hlen.
    assert (Hdetect : detectDuplicates kvMaps filenames
                      = ([], Some (ErrArityMismatch (len kvMaps) (len filenames)))).
    { unfold detectDuplicates.
      destruct (Z.eqb_spec (len kvMaps) (len filenames)) as [Heq|Hne];
        [unfold len in Heq; lia|reflexivity]. }
    split; [exact Hdetect|].
    intros environment configFile dryRun export consulAddr datacenter verbose m.
    split.
    + destruct (checkDuplicates_spec kvMaps filenames verbose m)
        as (m' & Hcheck & Hremote).
      rewrite Hdetect in Hcheck. eauto.
    + intros Hload. unfold run. rewrite Hload.
      destruct (checkDuplicates_spec kvMaps filenames verbose m)
        as (m' & Hcheck & Hremote).
      rewrite Hdetect in Hcheck. unfold bind. rewrite Hcheck.
      exists m'. now split.
  - intros kvMaps filenames duplicates environment configFile dryRun export
      consulAddr datacenter verbose m Hdetect Hne Hload.
    unfold run. rewrite Hload.
    destruct (checkDuplicates_spec kvMaps filenames verbose m)
      as (m' & Hcheck & Hremote).
    rewrite Hdetect in Hcheck.
    assert (Hgt : (len duplicates >? 0) = true).
    { destruct duplicates; [congruence|]. unfold len. cbn [length].
      apply Z.gtb_gt. lia. }
    rewrite Hgt in Hcheck. unfold bind. rewrite Hcheck.
    exists m'. now split.
Qed.
End Program.

(** ** The scenarios of the specification and the repository's tests *)

Ltac small_slice := unfold in_memory; vm_compute; discriminate.

(** The vectors of TestEncodeValue. *)
Example encodeValue_simple : encodeValue "hogehoge" = "aG9nZWhvZ2U=".
Proof. reflexivity. Qed.

Example encodeValue_empty : encodeValue "" = "".
Proof. reflexivity. Qed.

Example encodeValue_special :
  encodeValue "key=value&foo=bar" = "a2V5PXZhbHVlJmZvbz1iYXI=".
Proof. reflexivity. Qed.

(** Scenario B: a nested mapping flattens to its two leaves. *)
Example scenario_B :
  flattenKVPairs fmt_empty_map
    [("app", VMapS [("name", VString "x"); ("version", VString "1.0")])] ""
  = [KVPair.mk "app/name" "x"; KVPair.mk "app/version" "1.0"].
Proof. reflexivity. Qed.

(** TestFlattenKVPairs, "numeric values", "empty map" and "nil value". *)
Example flattenKVPairs_scalars :
  flattenKVPairs fmt_empty_map
    [("int", VInt 123); ("float", VFloat "45.67"); ("bool", VBool true);
     ("empty", VMapS []); ("null_key", VNil)] ""
  = [KVPair.mk "int" "123"; KVPair.mk "float" "45.67";
     KVPair.mk "bool" "true"; KVPair.mk "null_key" "<nil>"].
Proof. reflexivity. Qed.

(** Scenario C: 150 entries give batches of 64, 64 and 22 operations. *)
Example scenario_C :
  exists chunks : list (list TxnOp.t),
    chunkOps 151 (sample_ops 150) MaxOpsPerTransaction = Returned chunks /\
    map len chunks = [64; 64; 22].
Proof. eexists. split; vm_compute; reflexivity. Qed.

(** Scenario D: the second of three batches is rolled back. *)
Example scenario_D :
  exists (s : ExecutionSummary.t) (out : list output),
    syncToConsul nat second_rejected_PUT marshal_any sample_Unmarshal
      (sample_pairs 150) "http://127.0.0.1:8500" "dc1" false
      (mkMachine nat 0%nat [])
    = (Returned (Some (ErrBatchesFailed 1 3)),
       mkMachine nat 3%nat (out ++ [OutSummary s])) /\
    ExecutionSummary.TotalBatches s = 3 /\
    ExecutionSummary.SuccessBatches s = 2 /\
    ExecutionSummary.FailedBatches s = 1.
Proof.
  eexists _, [_]. split; [vm_compute; reflexivity|]. repeat split.
Qed.

(** ** Instances of the theorems *)

Lemma chunkOps_batches_witness :
  in_memory (sample_ops 150) /\ (length (sample_ops 150) < 151)%nat /\
  exists chunks : list (list TxnOp.t),
    chunkOps 151 (sample_ops 150) MaxOpsPerTransaction = Returned chunks /\
    length chunks = 3%nat /\
    concat chunks = sample_ops 150 /\
    Forall (fun chunk => len chunk <= MaxOpsPerTransaction) chunks.
Proof.
  assert (Hmem : in_memory (sample_ops 150)) by small_slice.
  assert (Hfuel : (length (sample_ops 150) < 151)%nat) by (vm_compute; lia).
  split; [exact Hmem|]. split; [exact Hfuel|].
  destruct (chunkOps_batches (sample_ops 150) 151 Hmem Hfuel)
    as (chunks & Hrun & Hlen & _ & _ & Hcat & Hmax & _).
  exists chunks. split; [exact Hrun|]. split; [|split; assumption].
  rewrite Hlen. reflexivity.
Defined.

Lemma chunkOps_termination_witness :
  (exists chunks : list (list TxnOp.t),
      chunkOps 4 (sample_ops 3) 2 = Returned chunks) /\
  chunkOps 1000 (sample_ops 3) 0 = Running /\
  chunkOps 1 (sample_ops 3) (-1) = Panicked.
Proof.
  destruct (chunkOps_termination nat refused_PUT marshal_any sample_Unmarshal)
    as (Hpos & Hzero & Hneg & _).
  split; [|split].
  - destruct (Hpos (sample_ops 3) 2) as [chunks Hchunks];
      [small_slice|unfold int_max; lia|].
    exists chunks. apply Hchunks. vm_compute. lia.
  - apply Hzero. discriminate.
  - apply Hneg; [discriminate|unfold int_min; lia].
Defined.

Lemma syncKVPairs_accounting_witness :
  in_memory (sample_pairs 150) /\
  exists (s : ExecutionSummary.t) (m' : machine nat),
    syncKVPairs nat second_rejected_PUT marshal_any sample_Unmarshal
      sample_client (sample_pairs 150) false (mkMachine nat 0%nat [])
    = (Returned (Some s, None), m') /\
    ExecutionSummary.SuccessBatches s + ExecutionSummary.FailedBatches s
    = ExecutionSummary.TotalBatches s /\
    map BatchResult.ProcessedOps (ExecutionSummary.Results s) = [64; 64; 22].
Proof.
  assert (Hmem : in_memory (sample_pairs 150)) by small_slice.
  split; [exact Hmem|].
  destruct (syncKVPairs_accounting nat second_rejected_PUT marshal_any
              sample_Unmarshal sample_client (sample_pairs 150) false
              (mkMachine nat 0%nat []) Hmem)
    as (chunks & s & m' & Hchunks & Hrun & Hsum & _ & _ & _ & _ & _ & Hops & _).
  exists s, m'. split; [exact Hrun|]. split; [exact Hsum|].
  rewrite Hops. vm_compute in Hchunks. injection Hchunks as <-.
  vm_compute. reflexivity.
Defined.

Lemma syncToConsul_reports_failure_witness :
  in_memory (sample_pairs 150) /\
  exists (s : ExecutionSummary.t) (m' : machine nat) (err : option error),
    syncToConsul nat second_rejected_PUT marshal_any sample_Unmarshal
      (sample_pairs 150) "http://127.0.0.1:8500" "dc1" false
      (mkMachine nat 0%nat [])
    = (Returned err, m') /\
    (err <> None <-> ExecutionSummary.FailedBatches s > 0) /\
    In (OutSummary s) (printed nat m').
Proof.
  assert (Hmem : in_memory (sample_pairs 150)) by small_slice.
  split; [exact Hmem|].
  destruct (syncToConsul_reports_failure nat second_rejected_PUT marshal_any
              sample_Unmarshal (sample_pairs 150) "http://127.0.0.1:8500" "dc1"
              false (mkMachine nat 0%nat []) Hmem)
    as (s & m1 & m' & err & _ & Hrun & Hiff & _ & Hout & _).
  exists s, m', err. split; [exact Hrun|]. split; [exact Hiff|].
  rewrite Hout. apply in_or_app. right. now left.
Defined.

Lemma syncKVPairs_absorbs_transport_failure_witness :
  exists (s : ExecutionSummary.t) (m' : machine nat),
    run fmt_empty_map nat refused_PUT marshal_any sample_Unmarshal sample_load
        "development" "./environments.yaml" false false
        "http://127.0.0.1:8500" "dc1" false (mkMachine nat 0%nat [])
    = (Returned (Some (ErrBatchesFailed (ExecutionSummary.FailedBatches s)
                                        (ExecutionSummary.TotalBatches s))),
       m') /\
    ExecutionSummary.FailedBatches s > 0 /\
    ExecutionSummary.Results s !! 0%nat
    = Some (BatchResult.mk 0 false
              (Some (ErrExecuteRequest "connection refused")) [] 64) /\
    length (ExecutionSummary.Results s) = 2%nat /\
    remote nat m' = 2%nat.
Proof.
  destruct (proj2 (proj2 (syncKVPairs_absorbs_transport_failure fmt_empty_map
                            nat refused_PUT marshal_any sample_Unmarshal
                            sample_load))
              "development" "./environments.yaml" "http://127.0.0.1:8500"
              "dc1" false (mkMachine nat 0%nat []) [sample_source 65]
              ["app.yaml"] 0%nat (take 64 (sample_ops 65)) None
              (ErrExecuteRequest "connection refused"))
    as (s & m' & Hrun & Hgt & Hentry & Hlen & _ & Hworld).
  - reflexivity.
  - vm_compute. reflexivity.
  - small_slice.
  - vm_compute. reflexivity.
  - vm_compute. reflexivity.
  - reflexivity.
  - exists s, m'. split; [exact Hrun|]. split; [exact Hgt|].
    split; [exact Hentry|]. split; [rewrite Hlen|rewrite Hworld];
      vm_compute; reflexivity.
Defined.

(** Scenario A: the path [a] of the sources [f1] and [f2]. *)
Lemma detectDuplicates_occurrences_witness :
  length (map fst scenario_A) = length (map snd scenario_A) /\
  exists duplicates : list DuplicateInfo.t,
    detectDuplicates fmt_empty_map (map fst scenario_A) (map snd scenario_A)
    = (duplicates, None) /\
    In (DuplicateInfo.mk "a" [FileSource.mk "f1" "1"; FileSource.mk "f2" "2"])
       duplicates.
Proof.
  split; [reflexivity|].
  destruct (detectDuplicates_occurrences fmt_empty_map (map fst scenario_A)
              (map snd scenario_A) eq_refl)
    as (duplicates & Hrun & Hin & _).
  exists duplicates. split; [exact Hrun|].
  apply Hin. split; [reflexivity|cbn; lia].
Defined.

Lemma detectDuplicates_source_order_witness :
  Permutation scenario_A (rev scenario_A) /\
  exists duplicates duplicates' : list DuplicateInfo.t,
    detectDuplicates fmt_empty_map (map fst scenario_A) (map snd scenario_A)
    = (duplicates, None) /\
    detectDuplicates fmt_empty_map (map fst (rev scenario_A))
                     (map snd (rev scenario_A))
    = (duplicates', None) /\
    map DuplicateInfo.Key duplicates = map DuplicateInfo.Key duplicates'.
Proof.
  assert (Hperm : Permutation scenario_A (rev scenario_A))
    by apply Permutation_rev.
  split; [exact Hperm|].
  destruct (detectDuplicates_source_order fmt_empty_map scenario_A
              (rev scenario_A) Hperm)
    as (duplicates & duplicates' & Hrun & Hrun' & Hkeys & _).
  exists duplicates, duplicates'. repeat split; assumption.
Defined.

Lemma flattenKVPairs_nil_witness :
  In (KVPair.mk "app/owner" "<nil>")
     (flattenKVPairs fmt_empty_map null_source "") /\
  exists (duplicates : list DuplicateInfo.t) (d : DuplicateInfo.t),
    detectDuplicates fmt_empty_map [null_source; owner_source] ["f1"; "f2"]
    = (duplicates, None) /\
    In d duplicates /\ DuplicateInfo.Key d = "app/owner" /\
    In (FileSource.mk "f1" "<nil>") (DuplicateInfo.Files d) /\
    In (FileSource.mk "f2" "bob") (DuplicateInfo.Files d).
Proof.
  assert (Hr : reaches "" (VMapS null_source) "app/owner" VNil).
  { eapply reaches_string_key; [left; reflexivity|].
    eapply reaches_string_key; [right; left; reflexivity|].
    apply reaches_here. }
  destruct (flattenKVPairs_nil fmt_empty_map nat refused_PUT marshal_any
              sample_Unmarshal) as (Hemit & _ & Hdetect & _).
  split; [exact (Hemit null_source "" "app/owner" Hr)|].
  destruct (Hdetect [null_source; owner_source] ["f1"; "f2"] 0%nat null_source
              "f1" "app/owner" eq_refl eq_refl eq_refl Hr)
    as (_ & duplicates & Hrun & Htwo & _).
  destruct (Htwo 1%nat owner_source "f2" (KVPair.mk "app/owner" "bob"))
    as (d & Hd & Hkey & Hnil & Hbob);
    [discriminate|reflexivity|reflexivity|now left|reflexivity|].
  exists duplicates, d. repeat split; assumption.
Defined.

Lemma arity_mismatch_before_store_witness :
  exists m' : machine nat,
    run fmt_empty_map nat refused_PUT marshal_any sample_Unmarshal
        mismatched_load "development" "./environments.yaml" false false
        "http://127.0.0.1:8500" "dc1" false (mkMachine nat 0%nat [])
    = (Returned (Some (ErrDetectDuplicates (ErrArityMismatch 1 2))), m') /\
    remote nat m' = 0%nat.
Proof.
  destruct (proj1 (arity_mismatch_before_store fmt_empty_map nat refused_PUT
                     marshal_any sample_Unmarshal mismatched_load)
              [[("key", VString "value")]] ["file1.yaml"; "file2.yaml"])
    as [_ Hrun]; [discriminate|].
  destruct (Hrun "development" "./environments.yaml" false false
              "http://127.0.0.1:8500" "dc1" false (mkMachine nat 0%nat []))
    as [_ Hrun'].
  exact (Hrun' eq_refl).
Defined.

(** ** Where the code departs from the specification *)

(** C1, as stated, fails: the endpoint cannot be reached, so the first batch
    fails at the transport level; [syncKVPairs] nevertheless submits the
    second batch (the endpoint has seen two requests) and returns a summary
    with a nil error. *)
Lemma syncKVPairs_transport_counterexample :
  transaction_result nat refused_PUT marshal_any sample_Unmarshal sample_client
    0%nat (take 64 (sample_ops 65))
  = Returned (None, Some (ErrExecuteRequest "connection refused")) /\
  transport_level (ErrExecuteRequest "connection refused") = true /\
  syncKVPairs nat refused_PUT marshal_any sample_Unmarshal sample_client
    (sample_pairs 65) false (mkMachine nat 0%nat [])
  = (Returned
       (Some (ExecutionSummary.mk 65 2 0 2
                [BatchResult.mk 0 false
                   (Some (ErrExecuteRequest "connection refused")) [] 64;
                 BatchResult.mk 1 false
                   (Some (ErrExecuteRequest "connection refused")) [] 1]),
        None),
     mkMachine nat 2%nat []).
Proof. repeat split; vm_compute; reflexivity. Qed.

(** C4, as stated, fails: the path [a/b] occurs in one source only, and is
    reported with two occurrences from that source. *)
Lemma detectDuplicates_one_source_counterexample :
  length [slash_source] = length ["f1"] /\
  detectDuplicates fmt_empty_map [slash_source] ["f1"]
  = ([DuplicateInfo.mk "a/b" [FileSource.mk "f1" "1"; FileSource.mk "f1" "2"]],
     None) /\
  length (sources_with fmt_empty_map "a/b" [slash_source]) = 1%nat.
Proof. repeat split; vm_compute; reflexivity. Qed.

(** C6, as stated, fails: a sequence is a collection, and the flattener
    emits it as one leaf, its text, without an entry for its elements. *)
Lemma flattenKVPairs_sequence_counterexample :
  is_collection (VSeq [VString "a"; VString "b"]) = true /\
  flattenKVPairs fmt_empty_map servers_source ""
  = [KVPair.mk "servers" (Sprintf_v fmt_empty_map (VSeq [VString "a"; VString "b"]))] /\
  Sprintf_v fmt_empty_map (VSeq [VString "a"; VString "b"]) = "[a b]".
Proof. repeat split. Qed.

(** C7, as stated, fails: the mapping under [ports] has a key whose value is
    nil, and the flattener emits no entry for it; the key is an integer, and
    [processInterfaceMap] copies the entries under string keys only.  The
    key takes no part in the sync or in duplicate detection: no operation is
    created for it, and two sources that both have it are not reported. *)
Lemma flattenKVPairs_nil_counterexample :
  In (VInt 8080, VNil) [(VString "name", VString "http"); (VInt 8080, VNil)] /\
  flattenKVPairs fmt_empty_map ports_source ""
  = [KVPair.mk "ports/name" "http"] /\
  createTransactionOps (collectAllKVPairs fmt_empty_map [ports_source])
  = [TxnOp.mk (Some (TxnKVOp.mk "set" "ports/name" (encodeValue "http") 0))] /\
  flattenKVPairs fmt_empty_map [("ports", VMapI [(VInt 8080, VNil)])] "" = [] /\
  detectDuplicates fmt_empty_map
    [[("ports", VMapI [(VInt 8080, VNil)])];
     [("ports", VMapI [(VInt 8080, VNil)])]] ["f1"; "f2"]
  = ([], None).
Proof.
  split; [right; left; reflexivity|].
  repeat split; vm_compute; reflexivity.
Qed.
